(** * Stock ledger and bill generation of the eyewear back office

    A shallow embedding of the Express/Mongoose handlers that change stock
    and produce bills:

    - [routes/inventory.js]: POST /add-stock, /remove-stock, /adjust-stock;
    - [routes/bills.js]: POST /generate and PATCH /:id/status;
    - the [pre('save')] hooks of the Product and Bill schemas;
    - further on, the read routes GET /:id and GET /summary/stats of
      [routes/bills.js], the middlewares of [middleware/auth.js], the
      permission hook of the User schema and DELETE /:id of the users
      router.

    Conventions of the embedding.

    - The database is an explicit [State]: products and users are finite
      maps keyed by the document id, the transaction log and the bill
      collection are lists in insertion order.  No route deletes a bill, so
      a bill document is identified by its position in the collection.
    - A handler is a computation in the monad [Handler]: it threads the
      state and may stop early with a response ([return res.status(..)]);
      what was written before the early return stays written.
    - Stock counts are integer valued JavaScript numbers in the exactly
      representable range, modelled as [Z].
    - A numeric body field is what [isInt()] or [isFloat()] lets through and
      no sanitizer converts: a JSON number or a string that spells one
      ([BodyInt], [BodyAmount]).  Where the code uses the field under [-],
      [<], [Math.max], [Math.abs] or hands it to a schema, a string counts
      as the number it spells; under [+] a string concatenates.  POST
      /remove-stock and POST /adjust-stock use their quantity in the first
      way only and are given it as that number.
    - Prices, tax and discount are JavaScript floating point numbers.  The
      pricing code is embedded over an arbitrary carrier [M] with the four
      operations the handler uses ([Amount]); no algebraic law is assumed of
      them, the instance [Z_Amount] is used to run the handlers.
    - [req.user] is the actor that the [auth] and [authorize] /
      [checkPermission] middlewares let through.  Of express-validator's
      chain the numeric range checks, the array check and the [isIn] check
      are part of the handlers below; ids, dates and the free text are taken
      as they leave the validator ([isMongoId], [isISO8601().toDate()],
      [notEmpty().trim()]).
    - An exception inside the [try] of a route ends the request with the
      500 of its [catch] ([throw]); what was written before stays written.
      The exceptions modelled are those of Mongoose that the routes can
      run into: a save of a bill whose required [billNumber] is missing
      (the check comes before the [pre('save')] hooks), an insert of a bill
      whose number the [unique] index already holds, a value that does not
      cast to the Number of its path, and a [findById] on a route parameter
      that does not cast to an ObjectId ([ParamId]).  The other schema
      checks and errors of the store itself are not modelled.
    - [Date.now()] is an argument of the handlers that save a bill. *)

From Stdlib Require Import ZArith Lia.
From stdpp Require Import gmap strings list fin_maps pretty.

Local Open Scope Z_scope.

(** ** Numbers used for money *)

(** The operations of JavaScript numbers that the pricing code applies to
    prices: the literal [0], [+], [-], [price * quantity] with an integer
    quantity, and the validator [isFloat({ min: 0 })]. *)
Class Amount (M : Type) : Type := {
  zero : M;
  plus : M → M → M;
  minus : M → M → M;
  times : M → Z → M;
  isFloat_min0 : M → bool
}.

#[global] Instance Z_Amount : Amount Z := {|
  zero := 0;
  plus := Z.add;
  minus := Z.sub;
  times := Z.mul;
  isFloat_min0 := λ x, 0 <=? x
|}.

(** ** Values of a request *)

(** The sign a numeric string starts with, if any. *)
Inductive Sign : Type := no_sign | plus_sign | minus_sign.

(** A body field that [isInt()] lets through and that reaches the handler
    as it came: a JSON number, or a string that the validator's pattern
    [/^[-+]?[0-9]+$/] matches, given by its sign, the number of its leading
    zeros and the number that the rest of its digits spell ("4" is
    [int_string no_sign 0 4], "+04" is [int_string plus_sign 1 4], "00" is
    [int_string no_sign 1 0]). *)
Inductive BodyInt : Type :=
| int_number (n : Z)
| int_string (sign : Sign) (zeros : nat) (magnitude : N).

Definition sign_text (s : Sign) : string :=
  match s with
  | no_sign => ""
  | plus_sign => "+"
  | minus_sign => "-"
  end.

Fixpoint zeros_text (n : nat) : string :=
  match n with
  | O => ""
  | S n => "0" +:+ zeros_text n
  end.

(** The field in a template literal, or as the right operand of [+] after a
    string: the decimal numeral of a number, a string as it is. *)
Definition int_text (v : BodyInt) : string :=
  match v with
  | int_number n => pretty n
  | int_string s z m => sign_text s +:+ zeros_text z +:+ pretty m
  end.

(** The field as a number, as [-], [*], [<], [>=] and the schema casts read
    it. *)
Definition int_value (v : BodyInt) : Z :=
  match v with
  | int_number n => n
  | int_string minus_sign _ m => - Z.of_N m
  | int_string _ _ m => Z.of_N m
  end.

(** What an arithmetic [+] gives: a number, or a string when an operand was
    a string. *)
Inductive JsValue : Type :=
| js_number (n : Z)
| js_string (s : string).

(** [a + v] for a number [a] and a body field [v]. *)
Definition js_plus (a : Z) (v : BodyInt) : JsValue :=
  match v with
  | int_number n => js_number (a + n)
  | int_string _ _ _ => js_string (pretty a +:+ int_text v)
  end.

Definition string_tail (s : string) : string :=
  match s with
  | EmptyString => EmptyString
  | String _ s' => s'
  end.

(** The value of a decimal digit, nothing for another character. *)
Definition digit_value (c : Ascii.ascii) : option N :=
  let n := Ascii.N_of_ascii c in
  if (48 <=? n)%N && (n <=? 57)%N then Some (n - 48)%N else None.

Fixpoint digits_value (acc : N) (s : string) : option N :=
  match s with
  | EmptyString => Some acc
  | String c s' =>
      match digit_value c with
      | Some d => digits_value (10 * acc + d) s'
      | None => None
      end
  end.

(** JavaScript's [Number(s)] on the strings that [+] builds here, which are
    made of decimal digits and signs: an optional sign followed by at least
    one digit is that number, anything else ("5+4", "2-3") is [NaN], here
    [None]. *)
Definition Number_of_string (s : string) : option Z :=
  let unsigned (d : string) : option N :=
    if String.eqb d "" then None else digits_value 0 d in
  if String.prefix "-" s then (λ n, - Z.of_N n) <$> unsigned (string_tail s)
  else if String.prefix "+" s then Z.of_N <$> unsigned (string_tail s)
  else Z.of_N <$> unsigned s.

(** Mongoose's cast of a value to a path of type Number: a number is taken
    as it is, a string through [Number]; [None] is the cast error that makes
    the save of the document throw. *)
Definition castNumber (v : JsValue) : option Z :=
  match v with
  | js_number n => Some n
  | js_string s => Number_of_string s
  end.

(** A money field of the body that [isFloat()] lets through: a JSON number
    or a string that spells one. *)
Inductive BodyAmount (M : Type) : Type :=
| amount_number (m : M)
| amount_string (s : string).

#[global] Arguments amount_number {M} m.
#[global] Arguments amount_string {M} s.

(** What the pricing code does with money besides arithmetic: [String(m)]
    when [+] meets a string, [Number(s)] when [-] or a schema cast meets
    one, and the validator [isFloat({ min: 0 })] on a string. *)
Class AmountText (M : Type) : Type := {
  to_text : M → string;
  of_text : string → M;
  isFloat_min0_text : string → bool
}.

(** Over the integers: decimal numerals.  A string that is no numeral does
    not pass the validator; [of_text] gives it 0. *)
#[global] Instance Z_AmountText : AmountText Z := {|
  to_text := pretty;
  of_text := λ s, default 0 (Number_of_string s);
  isFloat_min0_text := λ s,
    match Number_of_string s with
    | Some n => 0 <=? n
    | None => false
    end
|}.

(** A route parameter [:id] as [findById] meets it: a string that does not
    cast to an ObjectId, or one that does and is then the key of at most one
    document. *)
Inductive ParamId (A : Type) : Type :=
| uncastable
| castable (key : A).

#[global] Arguments uncastable {A}.
#[global] Arguments castable {A} key.

(** ** Enumerations of the schemas *)

Inductive Role : Type := role_superadmin | role_admin | role_user.

Inductive TxType : Type := IN | OUT | ADJUSTMENT.

Inductive BillStatus : Type := PENDING | PAID | OVERDUE | CANCELLED.

#[global] Instance Role_eq_dec : EqDecision Role.
Proof. solve_decision. Defined.

(** [body('status').isIn(['PENDING', 'PAID', 'OVERDUE', 'CANCELLED'])]:
    the request carries a string, the four listed ones are accepted. *)
Definition status_isIn (s : string) : option BillStatus :=
  if String.eqb s "PENDING" then Some PENDING
  else if String.eqb s "PAID" then Some PAID
  else if String.eqb s "OVERDUE" then Some OVERDUE
  else if String.eqb s "CANCELLED" then Some CANCELLED
  else None.

(** ** Documents *)

(** userSchema, the fields the billing route reads. *)
Record User : Type := mkUser {
  role : Role;
  firstName : string;
  lastName : string
}.

(** Modelled from the spec: the InventoryTransaction schema
    ([model/inventory]) is required by both routes but is not among the
    sources; the record has the fields the routes pass to its constructor,
    which are those of the spec's StockTransaction. *)
Record InventoryTransaction : Type := mkTransaction {
  txProduct : string;
  txType : TxType;
  txQuantity : Z;
  previousStock : Z;
  newStock : Z;
  reason : string;
  reference : option string;
  txNotes : option string;
  performedBy : string
}.

(** One request line of POST /generate: [{ product, quantity }]. *)
Record Item : Type := mkItem {
  item_product : string;
  item_quantity : BodyInt
}.

Section Model.

Context {M : Type} `{Amount M} `{AmountText M}.

(** productSchema, the fields the stock and billing routes read or write. *)
Record Product : Type := mkProduct {
  name : string;
  price : M;
  stockCount : Z;
  inStock : bool
}.

(** The embedded [items] sub-documents of billSchema. *)
Record BillLine : Type := mkBillLine {
  product : string;
  quantity : Z;
  unitPrice : M;
  totalPrice : M
}.

(** billSchema.  [billNumber] is absent on a document built by
    [new Bill({...})] until the save hook fills it in. *)
Record Bill : Type := mkBill {
  billNumber : option string;
  adminId : string;
  items : list BillLine;
  subtotal : M;
  tax : M;
  discount : M;
  total : M;
  status : BillStatus;
  dueDate : N;
  notes : option string;
  generatedBy : string
}.

Record State : Type := mkState {
  products : gmap string Product;
  users : gmap string User;
  transactions : list InventoryTransaction;
  bills : list Bill
}.

(** ** Responses and the handler monad *)

(** What a handler sends: [res.status(s).json({ message, ...payload })] on
    the success path, [res.status(s).json({ message })] on an early return,
    or [res.status(400).json({ errors })] from the validator. *)
Inductive Response (A : Type) : Type :=
| Success (code : nat) (message : string) (payload : A)
| Failure (code : nat) (message : string)
| ValidationErrors.

#[global] Arguments Success {A} code message payload.
#[global] Arguments Failure {A} code message.
#[global] Arguments ValidationErrors {A}.

(** A handler body: [inl r] is a response already sent by an early
    [return], [inr a] the value the code goes on with.  The state that comes
    back is the store as written so far in both cases. *)
Definition Handler (R A : Type) : Type := State → (R + A) * State.

Definition ret {R A : Type} (a : A) : Handler R A := λ st, (inr a, st).

Definition send {R A : Type} (r : R) : Handler R A := λ st, (inl r, st).

Definition bind {R A B : Type} (m : Handler R A) (k : A → Handler R B)
  : Handler R B :=
  λ st, match m st with
        | (inl r, st') => (inl r, st')
        | (inr a, st') => k a st'
        end.

(** An exception inside the [try] of a route: the [catch] answers 500. *)
Definition throw {A B : Type} : Handler (Response A) B :=
  send (Failure 500 "Server error").

Definition run {R : Type} (h : Handler R R) (st : State) : R * State :=
  match h st with
  | (inl r, st') => (r, st')
  | (inr r, st') => (r, st')
  end.

Notation "x <~ m ; k" := (bind m (λ x, k))
  (at level 20, m at level 100, k at level 200, only parsing).

(** ** The store *)

(** [Product.findById(id)] and [User.findById(id)] on an id that the
    validator has checked with [isMongoId()]. *)
Definition Product_findById {R : Type} (id : string)
  : Handler R (option Product) :=
  λ st, (inr (products st !! id), st).

Definition User_findById {R : Type} (id : string) : Handler R (option User) :=
  λ st, (inr (users st !! id), st).

(** [Bill.findById(req.params.id)]: the parameter is not validated, and
    [findById] throws on one that does not cast.  The document comes with
    the key it is stored under. *)
Definition Bill_findById {A : Type} (id : ParamId nat)
  : Handler (Response A) (option (nat * Bill)) :=
  match id with
  | uncastable => throw
  | castable key => λ st, (inr ((λ doc, (key, doc)) <$> bills st !! key), st)
  end.

(** [mongoose.model('Bill').countDocuments()]. *)
Definition Bill_countDocuments {R : Type} : Handler R N :=
  λ st, (inr (N.of_nat (length (bills st))), st).

(** productSchema.pre('save'): [this.inStock = this.stockCount > 0]. *)
Definition Product_pre_save (this : Product) : Product :=
  {| name := name this;
     price := price this;
     stockCount := stockCount this;
     inStock := stockCount this >? 0 |}.

(** [await product.save()] on a document that [findById] returned: the hook
    runs, the stored document is replaced; the in-memory document (with the
    hook's change) is what the handler goes on with. *)
Definition Product_save {R : Type} (id : string) (doc : Product)
  : Handler R Product :=
  λ st, let doc' := Product_pre_save doc in
        (inr doc',
         {| products := <[id := doc']> (products st);
            users := users st;
            transactions := transactions st;
            bills := bills st |}).

(** [await transaction.save()] on a new InventoryTransaction: appended to
    the log. *)
Definition InventoryTransaction_save {R : Type} (doc : InventoryTransaction)
  : Handler R InventoryTransaction :=
  λ st, (inr doc,
         {| products := products st;
            users := users st;
            transactions := transactions st ++ [doc];
            bills := bills st |}).

(** JavaScript's [!this.billNumber]: true for an absent and for an empty
    string. *)
Definition falsy (s : option string) : bool :=
  match s with
  | None => true
  | Some s => String.eqb s ""
  end.

(** The template literal [`BILL-${Date.now()}-${count + 1}`]. *)
Definition bill_number (now count : N) : string :=
  "BILL-" +:+ pretty now +:+ "-" +:+ pretty (count + 1)%N.

Definition set_billNumber (this : Bill) (s : string) : Bill :=
  {| billNumber := Some s;
     adminId := adminId this;
     items := items this;
     subtotal := subtotal this;
     tax := tax this;
     discount := discount this;
     total := total this;
     status := status this;
     dueDate := dueDate this;
     notes := notes this;
     generatedBy := generatedBy this |}.

(** billSchema.pre('save'); [now] is what [Date.now()] returns. *)
Definition Bill_pre_save {R : Type} (now : N) (this : Bill) : Handler R Bill :=
  if falsy (billNumber this) then
    count <~ Bill_countDocuments ;
    ret (set_billNumber this (bill_number now count))
  else ret this.

(** The validation that a save of a bill starts with.  Of the checks of
    billSchema it is [billNumber: { required: true }], which for a string
    also refuses the empty one, that decides the saves of the routes: POST
    /generate builds its document without a number, so its save throws
    whatever the other checks say, and PATCH /:id/status saves a document
    that it has loaded from the collection.  The range checks of the
    amounts ([min: 0]) are not written out. *)
Definition Bill_validate (doc : Bill) : bool := negb (falsy (billNumber doc)).

(** [await bill.save()] on a document built by [new Bill].  Mongoose
    validates the document first and throws when the check fails; only then
    come the [pre('save')] hooks; the insert throws when the [unique] index
    on [billNumber] already holds the number. *)
Definition Bill_save_new {A : Type} (now : N) (doc : Bill)
  : Handler (Response A) Bill :=
  if negb (Bill_validate doc) then throw else
  doc' <~ Bill_pre_save now doc ;
  λ st, if bool_decide (billNumber doc' ∈ billNumber <$> bills st)
        then throw st
        else (inr doc',
              {| products := products st;
                 users := users st;
                 transactions := transactions st;
                 bills := bills st ++ [doc'] |}).

(** [await bill.save()] on a document that [findById] returned: validated
    in the same way, then the hooks, then the stored document is
    replaced. *)
Definition Bill_save {A : Type} (now : N) (id : nat) (doc : Bill)
  : Handler (Response A) Bill :=
  if negb (Bill_validate doc) then throw else
  doc' <~ Bill_pre_save now doc ;
  λ st, (inr doc',
         {| products := products st;
            users := users st;
            transactions := transactions st;
            bills := <[id := doc']> (bills st) |}).

(** ** Stock routes ([routes/inventory.js]) *)

Definition set_stockCount (this : Product) (n : Z) : Product :=
  {| name := name this;
     price := price this;
     stockCount := n;
     inStock := inStock this |}.

(** POST /remove-stock and POST /adjust-stock answer
    [{ message, transaction, newStock }]. *)
Definition StockResponse : Type := Response (InventoryTransaction * Z).

(** POST /add-stock answers [{ message, transaction, newStock }] with
    [newStock] as [+] gave it. *)
Definition AddStockResponse : Type := Response (InventoryTransaction * JsValue).

(** POST /add-stock.  [previousStock + quantity] is a sum for a number and a
    concatenation for a string; the product takes it through the cast of
    [stockCount], and [product.save()] throws when it does not cast. *)
Definition add_stock (actor productId : string) (quantity : BodyInt)
    (reason : string) (reference notes : option string)
  : Handler AddStockResponse AddStockResponse :=
  if negb (1 <=? int_value quantity) then send ValidationErrors else
  product <~ Product_findById productId ;
  match product with
  | None => send (Failure 404 "Product not found")
  | Some product =>
      let previousStock := stockCount product in
      let newStock := js_plus previousStock quantity in
      match castNumber newStock with
      | None => throw
      | Some stock =>
          let product := set_stockCount product stock in
          _ <~ Product_save productId product ;
          transaction <~ InventoryTransaction_save
            {| txProduct := productId;
               txType := IN;
               txQuantity := int_value quantity;
               previousStock := previousStock;
               newStock := stock;
               reason := reason;
               reference := reference;
               txNotes := notes;
               performedBy := actor |} ;
          ret (Success 200 "Stock added successfully" (transaction, newStock))
      end
  end.

(** POST /remove-stock. *)
Definition remove_stock (actor productId : string) (quantity : Z)
    (reason : string) (reference notes : option string)
  : Handler StockResponse StockResponse :=
  if negb (1 <=? quantity) then send ValidationErrors else
  product <~ Product_findById productId ;
  match product with
  | None => send (Failure 404 "Product not found")
  | Some product =>
      let previousStock := stockCount product in
      let newStock := Z.max 0 (previousStock - quantity) in
      let product := set_stockCount product newStock in
      _ <~ Product_save productId product ;
      transaction <~ InventoryTransaction_save
        {| txProduct := productId;
           txType := OUT;
           txQuantity := quantity;
           previousStock := previousStock;
           newStock := newStock;
           reason := reason;
           reference := reference;
           txNotes := notes;
           performedBy := actor |} ;
      ret (Success 200 "Stock removed successfully" (transaction, newStock))
  end.

(** POST /adjust-stock. *)
Definition adjust_stock (actor productId : string) (newQuantity : Z)
    (reason : string) (reference notes : option string)
  : Handler StockResponse StockResponse :=
  if negb (0 <=? newQuantity) then send ValidationErrors else
  product <~ Product_findById productId ;
  match product with
  | None => send (Failure 404 "Product not found")
  | Some product =>
      let previousStock := stockCount product in
      let adjustmentQuantity := Z.abs (newQuantity - previousStock) in
      let product := set_stockCount product newQuantity in
      _ <~ Product_save productId product ;
      transaction <~ InventoryTransaction_save
        {| txProduct := productId;
           txType := ADJUSTMENT;
           txQuantity := adjustmentQuantity;
           previousStock := previousStock;
           newStock := newQuantity;
           reason := reason;
           reference := reference;
           txNotes := notes;
           performedBy := actor |} ;
      ret (Success 200 "Stock adjusted successfully" (transaction, newQuantity))
  end.

(** ** Billing routes ([routes/bills.js]) *)

Definition BillResponse : Type := Response Bill.

(** [isFloat({ min: 0 }).optional()] on a money field. *)
Definition amount_valid (v : option (BodyAmount M)) : bool :=
  match v with
  | None => true
  | Some (amount_number m) => isFloat_min0 m
  | Some (amount_string s) => isFloat_min0_text s
  end.

(** The validator chain of POST /generate: [items] is an array of at least
    one line, every [quantity] is an integer from 1, [tax] and [discount]
    are optional and not below 0. *)
Definition generate_valid (items : list Item)
    (tax discount : option (BodyAmount M)) : bool :=
  negb (bool_decide (items = []))
  && forallb (λ item, 1 <=? int_value (item_quantity item)) items
  && amount_valid tax
  && amount_valid discount.

Definition msg_product_not_found (id : string) : string :=
  "Product not found: " +:+ id.

Definition msg_insufficient_stock (name : string) (available : Z)
    (requested : BodyInt) : string :=
  "Insufficient stock for " +:+ name +:+ ". Available: " +:+ pretty available
  +:+ ", Requested: " +:+ int_text requested.

(** The body of [for (const item of items)], in request order.  A line
    quantity is read as a number by [<], [*] and [-=] and by the schemas
    that take it; [product.stockCount + item.quantity], the record's
    previous stock, is a sum for a number and a concatenation for a string,
    and [transaction.save()] throws when it does not cast. *)
Fixpoint process_items (actor : string) (adminUser : User)
    (items : list Item) (processedItems : list BillLine) (subtotal : M)
  : Handler BillResponse (list BillLine * M) :=
  match items with
  | [] => ret (processedItems, subtotal)
  | item :: rest =>
      product <~ Product_findById (item_product item) ;
      match product with
      | None => send (Failure 404 (msg_product_not_found (item_product item)))
      | Some product =>
          if stockCount product <? int_value (item_quantity item) then
            send (Failure 400
                    (msg_insufficient_stock (name product) (stockCount product)
                       (item_quantity item)))
          else
            let itemTotal :=
              times (price product) (int_value (item_quantity item)) in
            let subtotal := plus subtotal itemTotal in
            let processedItems :=
              processedItems ++
              [{| product := item_product item;
                  quantity := int_value (item_quantity item);
                  unitPrice := price product;
                  totalPrice := itemTotal |}] in
            let product :=
              set_stockCount product
                (stockCount product - int_value (item_quantity item)) in
            product <~ Product_save (item_product item) product ;
            match castNumber
                    (js_plus (stockCount product) (item_quantity item)) with
            | None => throw
            | Some previous =>
                _ <~ InventoryTransaction_save
                  {| txProduct := item_product item;
                     txType := OUT;
                     txQuantity := int_value (item_quantity item);
                     previousStock := previous;
                     newStock := stockCount product;
                     reason := "Admin stock allocation";
                     reference :=
                       Some ("Admin: " +:+ firstName adminUser +:+ " "
                             +:+ lastName adminUser);
                     txNotes := None;
                     performedBy := actor |} ;
                process_items actor adminUser rest processedItems subtotal
            end
      end
  end.

(** A money field as a number, as [-] and the schema cast read it. *)
Definition amount_value (v : BodyAmount M) : M :=
  match v with
  | amount_number m => m
  | amount_string s => of_text s
  end.

(** [subtotal + tax - discount]: the [+] concatenates when [tax] is a
    string, and [-] reads what it then gets as a number. *)
Definition js_total (subtotal : M) (tax discount : BodyAmount M) : M :=
  minus
    match tax with
    | amount_number t => plus subtotal t
    | amount_string s => of_text (to_text subtotal +:+ s)
    end
    (amount_value discount).

(** [new Bill({ adminId, items, subtotal, tax, discount, total, dueDate,
    notes, generatedBy })]: no bill number, the status of the schema's
    default. *)
Definition new_Bill (adminId : string) (processedItems : list BillLine)
    (subtotal : M) (tax discount : BodyAmount M) (total : M) (dueDate : N)
    (notes : option string) (actor : string) : Bill :=
  {| billNumber := None;
     adminId := adminId;
     items := processedItems;
     subtotal := subtotal;
     tax := amount_value tax;
     discount := amount_value discount;
     total := total;
     status := PENDING;
     dueDate := dueDate;
     notes := notes;
     generatedBy := actor |}.

(** POST /generate. *)
Definition generate (actor : string) (now : N) (adminId : string)
    (items : list Item) (dueDate : N) (tax discount : option (BodyAmount M))
    (notes : option string)
  : Handler BillResponse BillResponse :=
  if negb (generate_valid items tax discount) then send ValidationErrors else
  let tax := default (amount_number zero) tax in
  let discount := default (amount_number zero) discount in
  adminUser <~ User_findById adminId ;
  match adminUser with
  | None => send (Failure 404 "Admin not found")
  | Some adminUser =>
      if negb (bool_decide (role adminUser = role_admin)) then
        send (Failure 404 "Admin not found")
      else
        processed <~ process_items actor adminUser items [] zero ;
        let '(processedItems, subtotal) := processed in
        let total := js_total subtotal tax discount in
        bill <~ Bill_save_new now
          (new_Bill adminId processedItems subtotal tax discount total
             dueDate notes actor) ;
        ret (Success 201 "Bill generated successfully" bill)
  end.

Definition set_status (this : Bill) (s : BillStatus) : Bill :=
  {| billNumber := billNumber this;
     adminId := adminId this;
     items := items this;
     subtotal := subtotal this;
     tax := tax this;
     discount := discount this;
     total := total this;
     status := s;
     dueDate := dueDate this;
     notes := notes this;
     generatedBy := generatedBy this |}.

(** PATCH /:id/status. *)
Definition update_status (now : N) (id : ParamId nat) (status : string)
  : Handler BillResponse BillResponse :=
  match status_isIn status with
  | None => send ValidationErrors
  | Some status =>
      bill <~ Bill_findById id ;
      match bill with
      | None => send (Failure 404 "Bill not found")
      | Some (key, bill) =>
          let bill := set_status bill status in
          bill <~ Bill_save now key bill ;
          ret (Success 200 "Bill status updated successfully" bill)
      end
  end.

(** ** Requests and runs *)

(** One request to one of the five routes. *)
Inductive Request : Type :=
| AddStock (actor productId : string) (quantity : BodyInt) (reason : string)
    (reference notes : option string)
| RemoveStock (actor productId : string) (quantity : Z) (reason : string)
    (reference notes : option string)
| AdjustStock (actor productId : string) (newQuantity : Z) (reason : string)
    (reference notes : option string)
| GenerateBill (actor : string) (now : N) (adminId : string)
    (items : list Item) (dueDate : N) (tax discount : option (BodyAmount M))
    (notes : option string)
| UpdateStatus (now : N) (id : ParamId nat) (status : string).

(** The store after a request has been served. *)
Definition serve (req : Request) (st : State) : State :=
  match req with
  | AddStock actor productId quantity reason reference notes =>
      (run (add_stock actor productId quantity reason reference notes) st).2
  | RemoveStock actor productId quantity reason reference notes =>
      (run (remove_stock actor productId quantity reason reference notes) st).2
  | AdjustStock actor productId newQuantity reason reference notes =>
      (run (adjust_stock actor productId newQuantity reason reference notes)
         st).2
  | GenerateBill actor now adminId items dueDate tax discount notes =>
      (run (generate actor now adminId items dueDate tax discount notes) st).2
  | UpdateStatus now id status => (run (update_status now id status) st).2
  end.

(** Requests served one after the other. *)
Definition serve_all (reqs : list Request) (st : State) : State :=
  foldl (λ st req, serve req st) st reqs.

End Model.

#[global] Arguments Product : clear implicits.
#[global] Arguments BillLine : clear implicits.
#[global] Arguments Bill : clear implicits.
#[global] Arguments State : clear implicits.
#[global] Arguments Handler : clear implicits.
#[global] Arguments Request : clear implicits.
#[global] Arguments StockResponse : clear implicits.
#[global] Arguments AddStockResponse : clear implicits.
#[global] Arguments BillResponse : clear implicits.

(** ** Vocabulary of the properties *)

Section Vocabulary.

Context {M : Type} `{Amount M} `{AmountText M}.

(** Every stock count in the store is non-negative. *)
Definition stock_nonneg (st : State M) : Prop :=
  map_Forall (λ _ p, 0 ≤ stockCount p) (products st).

(** The flag of a product document agrees with its stock count. *)
Definition flag_ok (p : Product M) : Prop :=
  inStock p = (stockCount p >? 0).

(** A transaction record as the routes write it: both stock values are
    non-negative; IN adds the quantity, OUT takes it off and stops at zero,
    ADJUSTMENT records the distance between the two values. *)
Definition tx_consistent (t : InventoryTransaction) : Prop :=
  0 ≤ previousStock t ∧ 0 ≤ newStock t ∧
  match txType t with
  | IN => newStock t - previousStock t = txQuantity t
  | OUT => newStock t = Z.max 0 (previousStock t - txQuantity t)
  | ADJUSTMENT => txQuantity t = Z.abs (newStock t - previousStock t)
  end.

(** The same with an OUT record that always takes the whole quantity off. *)
Definition tx_exact (t : InventoryTransaction) : Prop :=
  0 ≤ previousStock t ∧ 0 ≤ newStock t ∧
  match txType t with
  | IN => newStock t - previousStock t = txQuantity t
  | OUT => newStock t - previousStock t = - txQuantity t
  | ADJUSTMENT => txQuantity t = Z.abs (newStock t - previousStock t)
  end.

(** Which request a record comes from, and what it carries over from the
    request. *)
Definition written_for (req : Request M) (t : InventoryTransaction) : Prop :=
  match req with
  | AddStock _ productId quantity _ _ _ =>
      txType t = IN ∧ txProduct t = productId ∧
      txQuantity t = int_value quantity
  | RemoveStock _ productId quantity _ _ _ =>
      txType t = OUT ∧ txProduct t = productId ∧ txQuantity t = quantity
  | AdjustStock _ productId newQuantity _ _ _ =>
      txType t = ADJUSTMENT ∧ txProduct t = productId ∧
      newStock t = newQuantity
  | GenerateBill _ _ _ items _ _ _ _ =>
      txType t = OUT ∧ reason t = "Admin stock allocation" ∧
      mkItem (txProduct t) (int_number (txQuantity t)) ∈ items ∧
      newStock t - previousStock t = - txQuantity t
  | UpdateStatus _ _ _ => False
  end.

(** The quantities of the request arrived as JSON numbers.  (The quantity
    of a removal and the target of an adjustment are used as numbers in
    either case.) *)
Definition number_typed (req : Request M) : Prop :=
  match req with
  | AddStock _ _ quantity _ _ _ => ∃ n, quantity = int_number n
  | GenerateBill _ _ _ items _ _ _ _ =>
      Forall (λ item, ∃ n, item_quantity item = int_number n) items
  | _ => True
  end.

(** The answer of the loop of POST /generate to a line it does not serve in
    the store [st]: the product is missing, or its stock is short. *)
Definition line_failure (st : State M) (item : Item)
  : option (BillResponse M) :=
  match products st !! item_product item with
  | None => Some (Failure 404 (msg_product_not_found (item_product item)))
  | Some p =>
      if stockCount p <? int_value (item_quantity item) then
        Some (Failure 400
                (msg_insufficient_stock (name p) (stockCount p)
                   (item_quantity item)))
      else None
  end.

(** The bill line of a request line served from the product document [p]. *)
Definition bill_line (p : Product M) (item : Item) : BillLine M :=
  {| product := item_product item;
     quantity := int_value (item_quantity item);
     unitPrice := price p;
     totalPrice := times (price p) (int_value (item_quantity item)) |}.

(** The previous stock that the record of a line served from [p] is given:
    the debited count [+] the quantity, cast to a number; nothing when it
    does not cast. *)
Definition record_previous (p : Product M) (item : Item) : option Z :=
  castNumber
    (js_plus (stockCount p - int_value (item_quantity item))
       (item_quantity item)).

(** The OUT record of a served line. *)
Definition allocation_record (actor : string) (adminUser : User)
    (p : Product M) (item : Item) (previous : Z) : InventoryTransaction :=
  {| txProduct := item_product item;
     txType := OUT;
     txQuantity := int_value (item_quantity item);
     previousStock := previous;
     newStock := stockCount p - int_value (item_quantity item);
     reason := "Admin stock allocation";
     reference :=
       Some ("Admin: " +:+ firstName adminUser +:+ " " +:+ lastName adminUser);
     txNotes := None;
     performedBy := actor |}.

(** The store after the product [p] has been debited for a line and
    saved. *)
Definition debit (item : Item) (p : Product M) (st : State M) : State M :=
  {| products :=
       <[item_product item :=
           Product_pre_save
             (set_stockCount p
                (stockCount p - int_value (item_quantity item)))]>
         (products st);
     users := users st;
     transactions := transactions st;
     bills := bills st |}.

(** The store after the loop has gone through one line that passed its
    check: the product is debited and saved, and one OUT record is appended
    unless its previous stock does not cast. *)
Definition allocate (actor : string) (adminUser : User) (item : Item)
    (st : State M) : State M :=
  match products st !! item_product item with
  | None => st
  | Some p =>
      match record_previous p item with
      | None => debit item p st
      | Some previous =>
          {| products := products (debit item p st);
             users := users st;
             transactions :=
               transactions st ++
               [allocation_record actor adminUser p item previous];
             bills := bills st |}
      end
  end.

(** The record of the line is written when the line is served from the
    store [st]. *)
Definition record_written (st : State M) (item : Item) : Prop :=
  ∃ p, products st !! item_product item = Some p ∧
       is_Some (record_previous p item).

(** Every line of [items] passes the check of the loop in the store it
    meets, that is after the loop has gone through the lines before it. *)
Fixpoint lines_checked (actor : string) (adminUser : User)
    (items : list Item) (st : State M) : Prop :=
  match items with
  | [] => True
  | item :: rest =>
      line_failure st item = None ∧
      lines_checked actor adminUser rest (allocate actor adminUser item st)
  end.

(** Every line of [items] is served in full: it passes the check of the
    loop in the store it meets, that is after the lines before it have been
    served, and its record is written. *)
Fixpoint lines_available (actor : string) (adminUser : User)
    (items : list Item) (st : State M) : Prop :=
  match items with
  | [] => True
  | item :: rest =>
      line_failure st item = None ∧
      record_written st item ∧
      lines_available actor adminUser rest (allocate actor adminUser item st)
  end.

(** The store after the lines of [items] have been served in order. *)
Definition allocate_all (actor : string) (adminUser : User)
    (items : list Item) (st : State M) : State M :=
  foldl (λ st item, allocate actor adminUser item st) st items.

(** The running sum of the loop over bill lines: [subtotal += totalPrice]
    from [0], in order. *)
Definition sum_totalPrice (lines : list (BillLine M)) : M :=
  foldl (λ acc line, plus acc (totalPrice line)) zero lines.

(** The store after a stock route has saved the product with the stock
    count [n] and appended the record [t]. *)
Definition stock_written (productId : string) (p : Product M) (n : Z)
    (t : InventoryTransaction) (st : State M) : State M :=
  {| products := <[productId := Product_pre_save (set_stockCount p n)]> (products st);
     users := users st;
     transactions := transactions st ++ [t];
     bills := bills st |}.

(** How one product slot of the store may differ after a request: the
    document is still there under the same name and price, a non-negative
    stock count stays non-negative, and the document is either untouched or
    has been saved with a flag that agrees with its stock count. *)
Definition product_step (o o' : option (Product M)) : Prop :=
  match o, o' with
  | None, None => True
  | Some p, Some p' =>
      name p' = name p ∧ price p' = price p ∧
      (0 ≤ stockCount p → 0 ≤ stockCount p') ∧
      (p' = p ∨ flag_ok p')
  | _, _ => False
  end.

End Vocabulary.

(** ** Stores used in the examples *)

Definition aviator : Product Z :=
  {| name := "Aviator"; price := 10; stockCount := 5; inStock := true |}.

Definition wayfarer : Product Z :=
  {| name := "Wayfarer"; price := 25; stockCount := 1; inStock := true |}.

Definition ada : User :=
  {| role := role_admin; firstName := "Ada"; lastName := "Byron" |}.

Definition shop : State Z :=
  {| products := {[ "p1" := aviator; "p2" := wayfarer ]};
     users := {[ "a1" := ada ]};
     transactions := [];
     bills := [] |}.

(** The bill of the spec's scenario: three pieces of the first product. *)
Definition first_bill : Bill Z :=
  {| billNumber := Some "BILL-1700000000000-1";
     adminId := "a1";
     items := [{| product := "p1"; quantity := 3; unitPrice := 10;
                  totalPrice := 30 |}];
     subtotal := 30;
     tax := 0;
     discount := 0;
     total := 30;
     status := PENDING;
     dueDate := 0%N;
     notes := None;
     generatedBy := "root" |}.

(** A store that holds that bill, with the stock and the log of the spec's
    scenario: two pieces of the first product are left, one OUT record from
    5 to 2 is in the log. *)
Definition shop_after_bill : State Z :=
  {| products :=
       {[ "p1" := {| name := "Aviator"; price := 10; stockCount := 2;
                     inStock := true |};
          "p2" := wayfarer ]};
     users := {[ "a1" := ada ]};
     transactions :=
       [mkTransaction "p1" OUT 3 5 2 "Admin stock allocation"
          (Some "Admin: Ada Byron") None "root"];
     bills := [first_bill] |}.

(** A request of two lines, the second of which asks for more than there
    is, and the store it leaves behind: the first line has been served. *)
Definition two_lines : list Item :=
  [mkItem "p1" (int_number 3); mkItem "p2" (int_number 2)].

Definition shop_partly_served : State Z :=
  {| products :=
       {[ "p1" := {| name := "Aviator"; price := 10; stockCount := 2;
                     inStock := true |};
          "p2" := wayfarer ]};
     users := {[ "a1" := ada ]};
     transactions :=
       [mkTransaction "p1" OUT 3 5 2 "Admin stock allocation"
          (Some "Admin: Ada Byron") None "root"];
     bills := [] |}.

(** The document that POST /generate builds for three pieces of the first
    product. *)
Definition first_document : Bill Z :=
  new_Bill "a1"
    [{| product := "p1"; quantity := 3; unitPrice := 10; totalPrice := 30 |}]
    30 (amount_number 0) (amount_number 0) 30 0%N None "root".

(** A delivery, a removal that asks for more than there is, and a
    stocktake. *)
Definition stock_requests : list (Request Z) :=
  [AddStock "root" "p1" (int_number 4) "delivery" None None;
   RemoveStock "root" "p2" 3 "breakage" None None;
   AdjustStock "root" "p2" 0 "stocktake" None None].


(** ** Read routes of the billing router ([routes/bills.js]) *)

#[global] Instance BillStatus_eq_dec : EqDecision BillStatus.
Proof. solve_decision. Defined.

(** What a read route sends: [res.json(body)], or an early
    [res.status(code).json({ message })]. *)
Inductive Reply (A : Type) : Type :=
| Json (body : A)
| Refused (code : nat) (message : string).

#[global] Arguments Json {A} body.
#[global] Arguments Refused {A} code message.

(** The [createdAt] filter of GET /summary/stats: [$gte] the start date and
    [$lte] the end date, each only when the query carries it. *)
Definition in_range (startDate endDate : option N) (createdAt : N) : bool :=
  from_option (λ d, d <=? createdAt)%N true startDate
  && from_option (λ d, createdAt <=? d)%N true endDate.

(** The upper-case name of a status, as the schema spells it. *)
Definition status_name (s : BillStatus) : string :=
  match s with
  | PENDING => "PENDING"
  | PAID => "PAID"
  | OVERDUE => "OVERDUE"
  | CANCELLED => "CANCELLED"
  end.

(** No character of the string is a dash. *)
Fixpoint no_dash (s : string) : Prop :=
  match s with
  | EmptyString => True
  | String c s' => String c "" ≠ "-" ∧ no_dash s'
  end.

Section Reads.

Context {M : Type} `{Amount M} `{AmountText M}.

(** GET /:id of the billing router, after [auth] and
    [checkPermission('canViewBilling')]; [userId] and [userRole] are
    [req.user._id] and [req.user.role].  [findById] throws on a parameter
    that does not cast.  The bill comes back with its [adminId] populated,
    which is [null] when no such user is stored; the ownership test then
    reads [_id] of [null].  The [catch] branch answers 500 in both cases. *)
Definition get_bill (userId : string) (userRole : Role) (id : ParamId nat)
    (st : State M) : Reply (Bill M) :=
  match id with
  | uncastable => Refused 500 "Server error"
  | castable key =>
      match bills st !! key with
      | None => Refused 404 "Bill not found"
      | Some bill =>
          if bool_decide (userRole ≠ role_superadmin) then
            match users st !! adminId bill with
            | None => Refused 500 "Server error"
            | Some _ =>
                if bool_decide (adminId bill ≠ userId) then
                  Refused 403 "Access denied"
                else Json bill
            end
          else Json bill
      end
  end.

(** The [summary] object of GET /summary/stats. *)
Record Summary : Type := mkSummary {
  totalBills : nat;
  totalAmount : M;
  paidAmount : M;
  pendingAmount : M;
  overdueAmount : M
}.

(** [{ $sum: '$total' }] over the matched bills. *)
Definition sum_total (matched : list (Bill M)) : M :=
  foldl (λ acc bill, plus acc (total bill)) zero matched.

(** [{ $sum: { $cond: [{ $eq: ['$status', s] }, '$total', 0] } }]. *)
Definition sum_total_if (s : BillStatus) (matched : list (Bill M)) : M :=
  foldl (λ acc bill,
           plus acc (if bool_decide (status bill = s) then total bill
                     else zero))
        zero matched.

(** The first [$group] stage, with [_id: null]: one document for a
    non-empty input, none for an empty one, in which case the route puts
    the object of zeros in its place ([summary[0] || {...}]). *)
Definition summary_group (matched : list (Bill M)) : Summary :=
  match matched with
  | [] =>
      {| totalBills := 0; totalAmount := zero; paidAmount := zero;
         pendingAmount := zero; overdueAmount := zero |}
  | _ =>
      {| totalBills := length matched;
         totalAmount := sum_total matched;
         paidAmount := sum_total_if PAID matched;
         pendingAmount := sum_total_if PENDING matched;
         overdueAmount := sum_total_if OVERDUE matched |}
  end.

(** The second [$group] stage, by status: one [{ _id, count }] document
    for every status that some matched bill has.  MongoDB leaves the order
    of the groups open; they are listed here in the order of the schema's
    enumeration. *)
Definition status_counts (matched : list (Bill M)) : list (BillStatus * nat) :=
  filter (λ group, group.2 ≠ 0%nat)
    ((λ s, (s, length (filter (λ bill, status bill = s) matched)))
       <$> [PENDING; PAID; OVERDUE; CANCELLED]).

(** GET /summary/stats over the bill collection, each bill with the
    [createdAt] timestamp that the schema's [timestamps] option gives it;
    [startDate] and [endDate] are the dates of the query, when present. *)
Definition summary_stats (startDate endDate : option N)
    (collection : list (N * Bill M)) : Summary * list (BillStatus * nat) :=
  let matched :=
    snd <$> filter (λ doc, in_range startDate endDate doc.1 = true)
              collection in
  (summary_group matched, status_counts matched).

(** ** More vocabulary *)

(** The quantity that the lines of a request ask of the product [id]. *)
Definition requested (id : string) (items : list Item) : Z :=
  foldr (λ item acc,
           if bool_decide (item_product item = id)
           then int_value (item_quantity item) + acc else acc)
        0 items.

(** The product and the quantity of a request line, and of a record. *)
Definition line_key (item : Item) : string * Z :=
  (item_product item, int_value (item_quantity item)).

Definition record_key (t : InventoryTransaction) : string * Z :=
  (txProduct t, txQuantity t).

(** Two bill documents agree on everything but status and bill number. *)
Definition same_content (b b' : Bill M) : Prop :=
  adminId b' = adminId b ∧ items b' = items b ∧ subtotal b' = subtotal b ∧
  tax b' = tax b ∧ discount b' = discount b ∧ total b' = total b ∧
  dueDate b' = dueDate b ∧ notes b' = notes b ∧
  generatedBy b' = generatedBy b.

(** ** Saves at the same time *)

(** [bill.save()] on a new document, step by step.  The save validates the
    document and throws when the check fails; the [pre('save')] hook then
    reads the count at [await countDocuments()], where other work may run
    before it is resumed; resumed, it builds the number from [Date.now()]
    and the count it read, and the document is inserted, unless the
    [unique] index refuses it and the save throws.  Nothing starts a thrown
    save again. *)
Inductive SaveTask : Type :=
| at_validate (doc : Bill M)
| at_hook (doc : Bill M)
| at_await (doc : Bill M) (count : N)
| inserted (doc : Bill M)
| thrown (doc : Bill M).

Definition try_insert (doc : Bill M) (collection : list (Bill M))
  : SaveTask * list (Bill M) :=
  if bool_decide (billNumber doc ∈ billNumber <$> collection)
  then (thrown doc, collection)
  else (inserted doc, collection ++ [doc]).

(** One step of a save; [now] is what the clock shows at that step. *)
Definition task_step (now : N) (task : SaveTask) (collection : list (Bill M))
  : SaveTask * list (Bill M) :=
  match task with
  | at_validate doc =>
      if Bill_validate doc then (at_hook doc, collection)
      else (thrown doc, collection)
  | at_hook doc =>
      if falsy (billNumber doc)
      then (at_await doc (N.of_nat (length collection)), collection)
      else try_insert doc collection
  | at_await doc count =>
      try_insert (set_billNumber doc (bill_number now count)) collection
  | inserted _ | thrown _ => (task, collection)
  end.

(** Two saves that take their steps as a schedule says: each entry names
    the save that goes on ([true] for the first) and the clock. *)
Fixpoint run_two (schedule : list (bool * N)) (a b : SaveTask)
    (collection : list (Bill M)) : SaveTask * SaveTask * list (Bill M) :=
  match schedule with
  | [] => (a, b, collection)
  | (first, now) :: schedule =>
      if first then
        let '(a', collection') := task_step now a collection in
        run_two schedule a' b collection'
      else
        let '(b', collection') := task_step now b collection in
        run_two schedule a b' collection'
  end.

End Reads.

#[global] Arguments Summary : clear implicits.
#[global] Arguments SaveTask : clear implicits.

#[global] Instance ParamId_eq_dec {A : Type} `{EqDecision A}
  : EqDecision (ParamId A).
Proof. solve_decision. Defined.

(** ** Accounts, authentication and permissions
       ([model/user.js], [middleware/auth.js], DELETE /:id of the users
       router) *)

Module Accounts.

(** The [permissions] sub-document of userSchema. *)
Record Permissions : Type := mkPermissions {
  canManageProducts : bool;
  canManageInventory : bool;
  canViewBilling : bool;
  canManageUsers : bool
}.

(** The keys of that sub-document, as [checkPermission] is given them. *)
Inductive Permission : Type :=
| key_canManageProducts
| key_canManageInventory
| key_canViewBilling
| key_canManageUsers.

(** [req.user.permissions[permission]]. *)
Definition lookup_permission (perms : Permissions) (permission : Permission)
  : bool :=
  match permission with
  | key_canManageProducts => canManageProducts perms
  | key_canManageInventory => canManageInventory perms
  | key_canViewBilling => canViewBilling perms
  | key_canManageUsers => canManageUsers perms
  end.

(** userSchema without [address] and the timestamps.  [password] is absent
    on a document that was read with [select('-password')]. *)
Record Account : Type := mkAccount {
  username : string;
  email : string;
  password : option string;
  role : Role;
  firstName : string;
  lastName : string;
  phone : option string;
  isActive : bool;
  createdBy : option string;
  permissions : Permissions
}.

Definition set_permissions (this : Account) (perms : Permissions) : Account :=
  {| username := username this;
     email := email this;
     password := password this;
     role := role this;
     firstName := firstName this;
     lastName := lastName this;
     phone := phone this;
     isActive := isActive this;
     createdBy := createdBy this;
     permissions := perms |}.

Definition set_isActive (this : Account) (b : bool) : Account :=
  {| username := username this;
     email := email this;
     password := password this;
     role := role this;
     firstName := firstName this;
     lastName := lastName this;
     phone := phone this;
     isActive := b;
     createdBy := createdBy this;
     permissions := permissions this |}.

(** [.select('-password')]. *)
Definition select_minus_password (this : Account) : Account :=
  {| username := username this;
     email := email this;
     password := None;
     role := role this;
     firstName := firstName this;
     lastName := lastName this;
     phone := phone this;
     isActive := isActive this;
     createdBy := createdBy this;
     permissions := permissions this |}.

(** userSchema.pre('save'), "Set default permissions based on role".  The
    other hook of the schema hashes the password and returns at once when
    the password was not modified, which is the case for every save
    modelled here. *)
Definition pre_save (this : Account) : Account :=
  if bool_decide (role this = role_superadmin) then
    set_permissions this
      {| canManageProducts := true; canManageInventory := true;
         canViewBilling := true; canManageUsers := true |}
  else if bool_decide (role this = role_admin) then
    set_permissions this
      {| canManageProducts := true; canManageInventory := true;
         canViewBilling := true; canManageUsers := false |}
  else
    set_permissions this
      {| canManageProducts := false; canManageInventory := false;
         canViewBilling := false; canManageUsers := false |}.

(** What a middleware does: [next()] with [req.user] as it then is, or a
    response that ends the request. *)
Inductive Passed (A : Type) : Type :=
| Next (reqUser : A)
| Stop (code : nat) (message : string).

#[global] Arguments Next {A} reqUser.
#[global] Arguments Stop {A} code message.

(** The first [n] characters of a string dropped. *)
Fixpoint drop_chars (n : nat) (s : string) : string :=
  match n, s with
  | O, _ => s
  | S n, String _ s' => drop_chars n s'
  | S _, EmptyString => EmptyString
  end.

(** [s.replace(pattern, '')] with a string pattern: the first occurrence of
    the pattern, looked for from the left, is taken out. *)
Fixpoint replace_with_empty (pattern s : string) : string :=
  if String.prefix pattern s then drop_chars (String.length pattern) s
  else match s with
       | EmptyString => EmptyString
       | String c s' => String c (replace_with_empty pattern s')
       end.

(** No character of the string is a space. *)
Fixpoint no_space (s : string) : Prop :=
  match s with
  | EmptyString => True
  | String c s' => String c "" ≠ " " ∧ no_space s'
  end.

(** [req.user] is the id of the account and the document read. *)
Definition ReqUser : Type := string * Account.

Section Middleware.

(** [jwt.verify(token, secret)] followed by [.id]: the id in the payload of
    a token that verifies, nothing for a token that makes [verify] throw or
    for a payload without an id (for which [findById] finds nothing). *)
Variable jwt_verify_id : string → option string.

(** The middleware [auth]; [authorization] is
    [req.header('Authorization')]. *)
Definition auth (authorization : option string)
    (accounts : gmap string Account) : Passed ReqUser :=
  let token := replace_with_empty "Bearer " <$> authorization in
  match token with
  | None => Stop 401 "No token, authorization denied"
  | Some token =>
      if String.eqb token "" then Stop 401 "No token, authorization denied"
      else
        match jwt_verify_id token with
        | None => Stop 401 "Token is not valid"
        | Some id =>
            match accounts !! id with
            | None => Stop 401 "Token is not valid"
            | Some user =>
                let user := select_minus_password user in
                if negb (isActive user) then Stop 401 "Token is not valid"
                else Next (id, user)
            end
        end
  end.

(** The middleware [authorize(...roles)]. *)
Definition authorize (roles : list Role) (reqUser : option ReqUser)
  : Passed ReqUser :=
  match reqUser with
  | None => Stop 401 "Not authenticated"
  | Some user =>
      if negb (bool_decide (role user.2 ∈ roles)) then
        Stop 403 "Access denied"
      else Next user
  end.

(** The middleware [checkPermission(permission)]. *)
Definition checkPermission (permission : Permission)
    (reqUser : option ReqUser) : Passed ReqUser :=
  match reqUser with
  | None => Stop 401 "Not authenticated"
  | Some user =>
      if negb (lookup_permission (permissions user.2) permission) then
        Stop 403 "Permission denied"
      else Next user
  end.

(** [router.x(path, auth, checkPermission(permission), handler)]: the two
    middlewares in a row, as they guard the stock routes and the read
    routes of the billing router. *)
Definition auth_then_checkPermission (permission : Permission)
    (authorization : option string) (accounts : gmap string Account)
  : Passed ReqUser :=
  match auth authorization accounts with
  | Stop code message => Stop code message
  | Next user => checkPermission permission (Some user)
  end.

(** [router.x(path, auth, authorize(...roles), handler)]. *)
Definition auth_then_authorize (roles : list Role)
    (authorization : option string) (accounts : gmap string Account)
  : Passed ReqUser :=
  match auth authorization accounts with
  | Stop code message => Stop code message
  | Next user => authorize roles (Some user)
  end.

(** The handler of DELETE /:id of the users router (a soft delete): the
    answer and the accounts as they are afterwards.  The parameter is not
    validated; [findById] throws on one that does not cast and the [catch]
    branch answers 500. *)
Definition delete_user (id : ParamId string) (accounts : gmap string Account)
  : Response unit * gmap string Account :=
  match id with
  | uncastable => (Failure 500 "Server error", accounts)
  | castable key =>
      match accounts !! key with
      | None => (Failure 404 "User not found", accounts)
      | Some user =>
          if bool_decide (role user = role_superadmin) then
            (Failure 403 "Cannot delete superadmin", accounts)
          else
            let user := set_isActive user false in
            (Success 200 "User deleted successfully" tt,
             <[key := pre_save user]> accounts)
      end
  end.

(** DELETE /:id behind its middlewares, [auth] and
    [authorize('superadmin')]. *)
Definition delete_user_route (authorization : option string)
    (id : ParamId string) (accounts : gmap string Account)
  : Response unit * gmap string Account :=
  match auth_then_authorize [role_superadmin] authorization accounts with
  | Stop code message => (Failure code message, accounts)
  | Next _ => delete_user id accounts
  end.

End Middleware.

(** The accounts of the examples. *)
Definition root : Account :=
  {| username := "root"; email := "root@shop.test"; password := Some "h0";
     role := role_superadmin; firstName := "Ro"; lastName := "Ot";
     phone := None; isActive := true; createdBy := None;
     permissions := mkPermissions true true true true |}.

Definition clerk : Account :=
  {| username := "clerk"; email := "clerk@shop.test"; password := Some "h1";
     role := role_admin; firstName := "Cle"; lastName := "Rk";
     phone := None; isActive := true; createdBy := Some "u0";
     permissions := mkPermissions true true true false |}.

Definition staff : gmap string Account := {[ "u0" := root; "u1" := clerk ]}.

(** A token check for the examples: the token "t0" belongs to "u0", the
    token "t1" to "u1", nothing else verifies. *)
Definition verify_example (token : string) : option string :=
  if String.eqb token "t0" then Some "u0"
  else if String.eqb token "t1" then Some "u1"
  else None.

End Accounts.

(** * Properties *)

Section Properties.
Context {M : Type} `{Amount M} `{AmountText M}.
Implicit Types (st : State M) (p : Product M) (item : Item).

(** ** Values of the request body *)

Lemma int_number_value (v : BodyInt) n : v = int_number n → int_value v = n.
Proof. by intros ->. Qed.

Lemma js_plus_number a n : castNumber (js_plus a (int_number n)) = Some (a + n).
Proof. reflexivity. Qed.

Lemma pretty_N_go_head (x : N) :
  ∀ s, (0 < x)%N →
       ∃ c r, pretty_N_go x s = String c r ∧ String c "" ≠ "-".
Proof.
  induction (N.lt_wf_0 x) as [x _ IH]. intros s Hx.
  rewrite pretty_N_go_step by done.
  destruct (decide (x `div` 10 = 0)%N) as [Hz|Hz].
  - rewrite Hz, pretty_N_go_0. eexists _, _. split; [reflexivity|].
    unfold pretty_N_char.
    by destruct (x `mod` 10)%N as [|[[[|[]|]|[[]|[]|]|]|[[|[]|]|[[]|[]|]|]|]].
  - apply IH; [apply N.div_lt; lia | by apply N.neq_0_lt_0].
Qed.

Lemma pretty_nonneg_head (a : Z) :
  0 ≤ a → ∃ c r, pretty a = String c r ∧ String c "" ≠ "-".
Proof.
  intros Ha. destruct a as [|x|x]; [by eexists _, _| |lia].
  change (pretty (Z.pos x)) with (pretty_N (N.pos x)).
  unfold pretty_N. rewrite decide_False by done.
  apply pretty_N_go_head. lia.
Qed.

Lemma Number_of_string_nonneg (c : Ascii.ascii) (r : string) n :
  String c "" ≠ "-" → Number_of_string (String c r) = Some n → 0 ≤ n.
Proof.
  intros Hc. unfold Number_of_string.
  replace (String.prefix "-" (String c r)) with false.
  2:{ cbn [String.prefix].
      destruct (Ascii.ascii_dec _ c) as [<-|]; [|reflexivity].
      exfalso. by apply Hc. }
  destruct (String.prefix "+" (String c r));
    (match goal with |- _ <$> ?o = _ → _ => destruct o; [|done] end);
    intros [= <-]; lia.
Qed.

(** A sum that [+] builds from a non-negative count and a quantity from 1
    is non-negative when it casts at all. *)
Lemma js_plus_nonneg (a : Z) (v : BodyInt) n :
  0 ≤ a → 1 ≤ int_value v → castNumber (js_plus a v) = Some n → 0 ≤ n.
Proof.
  intros Ha Hv. destruct v as [k|sg z m].
  - simpl in *. intros [= <-]. lia.
  - unfold js_plus, castNumber.
    destruct (pretty_nonneg_head a Ha) as (c & r & -> & Hc).
    simpl. by apply Number_of_string_nonneg.
Qed.

(** ** The loop of POST /generate *)

Lemma process_items_cons actor adminUser item rest acc sub st :
  process_items actor adminUser (item :: rest) acc sub st =
  match products st !! item_product item with
  | None => (inl (Failure 404 (msg_product_not_found (item_product item))), st)
  | Some p =>
      if stockCount p <? int_value (item_quantity item) then
        (inl (Failure 400 (msg_insufficient_stock (name p) (stockCount p)
                             (item_quantity item))), st)
      else
        match record_previous p item with
        | None =>
            (inl (Failure 500 "Server error"),
             allocate actor adminUser item st)
        | Some _ =>
            process_items actor adminUser rest (acc ++ [bill_line p item])
              (plus sub (totalPrice (bill_line p item)))
              (allocate actor adminUser item st)
        end
  end.
Proof.
  unfold allocate. simpl. unfold bind at 1, Product_findById at 1.
  destruct (products st !! item_product item) as [p|] eqn:Hp; [|reflexivity].
  destruct (stockCount p <? int_value (item_quantity item)); [reflexivity|].
  unfold bind at 1, Product_save at 1. unfold record_previous. simpl.
  destruct (castNumber _) as [previous|]; reflexivity.
Qed.

Lemma allocate_bills actor adminUser item st :
  bills (allocate actor adminUser item st) = bills st.
Proof.
  unfold allocate. destruct (products st !! item_product item) as [p|]; [|done].
  by destruct (record_previous p item).
Qed.

Lemma allocate_users actor adminUser item st :
  users (allocate actor adminUser item st) = users st.
Proof.
  unfold allocate. destruct (products st !! item_product item) as [p|]; [|done].
  by destruct (record_previous p item).
Qed.

Lemma allocate_debit actor adminUser item st p :
  products st !! item_product item = Some p →
  products (allocate actor adminUser item st) = products (debit item p st).
Proof.
  intros Hp. unfold allocate. rewrite Hp. by destruct (record_previous p item).
Qed.

Lemma allocate_all_bills actor adminUser items st :
  bills (allocate_all actor adminUser items st) = bills st.
Proof.
  revert st. induction items as [|item items IH]; intros st; [done|].
  simpl. rewrite IH. apply allocate_bills.
Qed.

Lemma allocate_all_users actor adminUser items st :
  users (allocate_all actor adminUser items st) = users st.
Proof.
  revert st. induction items as [|item items IH]; intros st; [done|].
  simpl. rewrite IH. apply allocate_users.
Qed.

Lemma allocate_all_app actor adminUser items items' st :
  allocate_all actor adminUser (items ++ items') st =
  allocate_all actor adminUser items' (allocate_all actor adminUser items st).
Proof. apply foldl_app. Qed.

(** A served line changes neither the name nor the price of a product. *)
Lemma allocate_price actor adminUser item st id :
  price <$> products (allocate actor adminUser item st) !! id =
  price <$> products st !! id.
Proof.
  destruct (products st !! item_product item) as [p|] eqn:Hp.
  - rewrite (allocate_debit _ _ _ _ _ Hp). simpl.
    destruct (decide (id = item_product item)) as [->|Hne].
    + rewrite lookup_insert_eq, Hp. done.
    + by rewrite lookup_insert_ne.
  - unfold allocate. by rewrite Hp.
Qed.

Lemma lines_available_checked actor adminUser items :
  ∀ st, lines_available actor adminUser items st →
        lines_checked actor adminUser items st.
Proof.
  induction items as [|item items IH]; intros st; [done|].
  intros (Hline & _ & Hrest). split; [done|]. by apply IH.
Qed.

Lemma lines_checked_app actor adminUser items items' :
  ∀ st, lines_checked actor adminUser (items ++ items') st ↔
        lines_checked actor adminUser items st ∧
        lines_checked actor adminUser items'
          (allocate_all actor adminUser items st).
Proof.
  induction items as [|item items IH]; intros st; simpl; [tauto|].
  rewrite IH. tauto.
Qed.

(** What the loop does: it serves a first part of the lines in full; then
    either the lines are over, or the next line fails its check and the
    loop answers with that failure, or the next line passes its check, its
    product is debited, and the previous stock of its record does not
    cast. *)
Lemma process_items_result actor adminUser items :
  ∀ acc sub st res st',
    process_items actor adminUser items acc sub st = (res, st') →
    ∃ served rest,
      items = served ++ rest ∧
      lines_available actor adminUser served st ∧
      match res with
      | inl r =>
          ∃ bad rest',
            rest = bad :: rest' ∧
            ((line_failure (allocate_all actor adminUser served st) bad = Some r ∧
              st' = allocate_all actor adminUser served st) ∨
             (line_failure (allocate_all actor adminUser served st) bad = None ∧
              ¬ record_written (allocate_all actor adminUser served st) bad ∧
              r = Failure 500 "Server error" ∧
              st' = allocate_all actor adminUser (served ++ [bad]) st))
      | inr (lines, sub') =>
          rest = [] ∧
          st' = allocate_all actor adminUser served st ∧
          ∃ new, lines = acc ++ new ∧
                 sub' = foldl (λ a line, plus a (totalPrice line)) sub new ∧
                 Forall2 (λ item line,
                            ∃ p, products st !! item_product item = Some p ∧
                                 line = bill_line p item) items new
      end.
Proof.
  induction items as [|item items IH]; intros acc sub st res st' Hrun.
  - simpl in Hrun. injection Hrun as <- <-.
    exists [], []. split_and!; try done. exists []. by rewrite app_nil_r.
  - rewrite process_items_cons in Hrun.
    destruct (products st !! item_product item) as [p|] eqn:Hp.
    + destruct (stockCount p <? int_value (item_quantity item)) eqn:Hlt.
      * injection Hrun as <- <-. exists [], (item :: items).
        split_and!; try done. exists item, items. split; [done|]. left.
        split; [|done]. unfold line_failure. simpl. by rewrite Hp, Hlt.
      * destruct (record_previous p item) as [previous|] eqn:Hprev.
        -- apply IH in Hrun as (served & rest & -> & Hav & Hres).
           exists (item :: served), rest. split; [done|]. split.
           { simpl. split; [unfold line_failure; by rewrite Hp, Hlt|].
             split; [|done]. exists p. by rewrite Hprev. }
           destruct res as [r|[lines sub']]; [done|].
           destruct Hres as (-> & -> & new & -> & -> & Hall).
           split; [done|]. split; [done|]. exists (bill_line p item :: new).
           split; [by rewrite <- app_assoc|]. split; [done|].
           constructor; [eauto|].
           eapply Forall2_impl; [exact Hall|].
           intros it line (p' & Hp' & ->). simpl.
           pose proof (allocate_price actor adminUser item st (item_product it)) as Hpr.
           rewrite Hp' in Hpr. simpl in Hpr.
           destruct (products st !! item_product it) as [p0|]; [|done].
           exists p0. split; [done|]. injection Hpr as Hpr.
           unfold bill_line. by rewrite Hpr.
        -- injection Hrun as <- <-. exists [], (item :: items).
           split_and!; try done. exists item, items. split; [done|]. right.
           simpl. split_and!; try done.
           ++ unfold line_failure. by rewrite Hp, Hlt.
           ++ intros (p' & Hp' & Hsome). rewrite Hp in Hp'.
              injection Hp' as <-. rewrite Hprev in Hsome. by destruct Hsome.
    + injection Hrun as <- <-. exists [], (item :: items).
      split_and!; try done. exists item, items. split; [done|]. left.
      split; [|done]. unfold line_failure. simpl. by rewrite Hp.
Qed.

(** In every case the store after the loop is the store after the lines
    that passed their check. *)
Lemma process_items_state actor adminUser items acc sub st res st' :
  process_items actor adminUser items acc sub st = (res, st') →
  ∃ through rest,
    items = through ++ rest ∧
    lines_checked actor adminUser through st ∧
    st' = allocate_all actor adminUser through st.
Proof.
  intros (served & rest & -> & Hav%lines_available_checked & Hres)%process_items_result.
  destruct res as [r|[lines sub']].
  - destruct Hres as (bad & rest' & -> & [[_ ->]|(Hbad & _ & _ & ->)]).
    + by exists served, (bad :: rest').
    + exists (served ++ [bad]), rest'. split; [by rewrite <- app_assoc|].
      split; [|done]. apply lines_checked_app. split; [done|]. by split.
  - destruct Hres as (-> & -> & _). by exists served, [].
Qed.

(** Lines whose quantities are JSON numbers always get their record. *)
Lemma record_previous_number p item n :
  item_quantity item = int_number n →
  record_previous p item = Some (stockCount p).
Proof.
  intros Hq. unfold record_previous. rewrite Hq. simpl. f_equal. lia.
Qed.

(** ** The routes, case by case *)

Lemma add_stock_run actor productId quantity reason reference notes st :
  run (add_stock actor productId quantity reason reference notes) st =
  if 1 <=? int_value quantity then
    match products st !! productId with
    | None => (Failure 404 "Product not found", st)
    | Some p =>
        match castNumber (js_plus (stockCount p) quantity) with
        | None => (Failure 500 "Server error", st)
        | Some n =>
            let t := mkTransaction productId IN (int_value quantity)
                       (stockCount p) n reason reference notes actor in
            (Success 200 "Stock added successfully"
               (t, js_plus (stockCount p) quantity),
             stock_written productId p n t st)
        end
    end
  else (ValidationErrors, st).
Proof.
  unfold run, add_stock. destruct (1 <=? int_value quantity); [|reflexivity].
  simpl. unfold bind at 1, Product_findById at 1.
  destruct (products st !! productId) as [p|]; [|reflexivity].
  destruct (castNumber (js_plus (stockCount p) quantity)); reflexivity.
Qed.

Lemma remove_stock_run actor productId quantity reason reference notes st :
  run (remove_stock actor productId quantity reason reference notes) st =
  if 1 <=? quantity then
    match products st !! productId with
    | None => (Failure 404 "Product not found", st)
    | Some p =>
        let n := Z.max 0 (stockCount p - quantity) in
        let t := mkTransaction productId OUT quantity (stockCount p) n
                   reason reference notes actor in
        (Success 200 "Stock removed successfully" (t, n),
         stock_written productId p n t st)
    end
  else (ValidationErrors, st).
Proof.
  unfold run, remove_stock. destruct (1 <=? quantity); [|reflexivity]. simpl.
  unfold bind at 1, Product_findById at 1.
  destruct (products st !! productId); reflexivity.
Qed.

Lemma adjust_stock_run actor productId newQuantity reason reference notes st :
  run (adjust_stock actor productId newQuantity reason reference notes) st =
  if 0 <=? newQuantity then
    match products st !! productId with
    | None => (Failure 404 "Product not found", st)
    | Some p =>
        let t := mkTransaction productId ADJUSTMENT
                   (Z.abs (newQuantity - stockCount p)) (stockCount p)
                   newQuantity reason reference notes actor in
        (Success 200 "Stock adjusted successfully" (t, newQuantity),
         stock_written productId p newQuantity t st)
    end
  else (ValidationErrors, st).
Proof.
  unfold run, adjust_stock. destruct (0 <=? newQuantity); [|reflexivity]. simpl.
  unfold bind at 1, Product_findById at 1.
  destruct (products st !! productId); reflexivity.
Qed.

(** The document that POST /generate builds has no number, so its save is
    refused by the validation of the [required] path, before the hook. *)
Lemma Bill_save_new_unnumbered {A : Type} now (doc : Bill M) st :
  falsy (billNumber doc) = true →
  Bill_save_new (A := A) now doc st = (inl (Failure 500 "Server error"), st).
Proof. intros Hdoc. unfold Bill_save_new, Bill_validate. by rewrite Hdoc. Qed.

Lemma generate_run actor now adminId items dueDate tax discount notes st :
  run (generate actor now adminId items dueDate tax discount notes) st =
  if generate_valid items tax discount then
    match users st !! adminId with
    | None => (Failure 404 "Admin not found", st)
    | Some adminUser =>
        if bool_decide (role adminUser = role_admin) then
          match process_items actor adminUser items [] zero st with
          | (inl r, st') => (r, st')
          | (inr _, st') => (Failure 500 "Server error", st')
          end
        else (Failure 404 "Admin not found", st)
    end
  else (ValidationErrors, st).
Proof.
  unfold run, generate. destruct (generate_valid items tax discount); [|reflexivity].
  simpl. unfold bind at 1, User_findById at 1.
  destruct (users st !! adminId) as [adminUser|]; [|reflexivity].
  destruct (bool_decide (role adminUser = role_admin)); [|reflexivity].
  simpl. unfold bind at 1.
  destruct (process_items actor adminUser items [] zero st) as [[r|[lines sub]] st'];
    [reflexivity|].
  unfold bind at 1. by rewrite Bill_save_new_unnumbered.
Qed.

Lemma update_status_run now id s st :
  run (update_status now id s) st =
  match status_isIn s with
  | None => (ValidationErrors, st)
  | Some s' =>
      match id with
      | uncastable => (Failure 500 "Server error", st)
      | castable key =>
          match bills st !! key with
          | None => (Failure 404 "Bill not found", st)
          | Some b =>
              if falsy (billNumber b) then (Failure 500 "Server error", st)
              else
                (Success 200 "Bill status updated successfully"
                   (set_status b s'),
                 {| products := products st;
                    users := users st;
                    transactions := transactions st;
                    bills := <[key := set_status b s']> (bills st) |})
          end
      end
  end.
Proof.
  unfold run, update_status. destruct (status_isIn s) as [s'|]; [|reflexivity].
  destruct id as [|key]; [reflexivity|].
  unfold bind at 1, Bill_findById at 1.
  destruct (bills st !! key) as [b|] eqn:Hb; rewrite ?Hb; [|reflexivity].
  simpl. unfold Bill_save, Bill_validate, Bill_pre_save. simpl.
  destruct (falsy (billNumber b)); reflexivity.
Qed.

(** A failure of a line is a failure answer, 404 or 400. *)
Lemma line_failure_Some st item r :
  line_failure st item = Some r →
  ∃ code msg, r = Failure code msg ∧ (code = 404%nat ∨ code = 400%nat).
Proof.
  unfold line_failure. destruct (products st !! item_product item) as [p|].
  - destruct (stockCount p <? int_value (item_quantity item)); [|done].
    intros [= <-]. eauto.
  - intros [= <-]. eauto.
Qed.

Lemma line_failure_None st item :
  line_failure st item = None →
  ∃ p, products st !! item_product item = Some p ∧
       int_value (item_quantity item) ≤ stockCount p.
Proof.
  unfold line_failure. destruct (products st !! item_product item) as [p|]; [|done].
  destruct (Z.ltb_spec (stockCount p) (int_value (item_quantity item)));
    [done|]. eauto.
Qed.

(** Served lines are passed over by the loop. *)
Lemma process_items_app actor adminUser served rest :
  ∀ acc sub st,
    lines_available actor adminUser served st →
    ∃ acc' sub',
      process_items actor adminUser (served ++ rest) acc sub st =
      process_items actor adminUser rest acc' sub'
        (allocate_all actor adminUser served st).
Proof.
  induction served as [|item served IH]; intros acc sub st Hav.
  - by exists acc, sub.
  - destruct Hav as (Hok & (p' & Hp' & [previous Hprev]) & Hav). simpl app.
    rewrite process_items_cons.
    apply line_failure_None in Hok as (p & Hp & Hle).
    rewrite Hp in Hp'. injection Hp' as <-. rewrite Hp, Hprev.
    replace (stockCount p <? int_value (item_quantity item)) with false
      by (symmetry; apply Z.ltb_ge; lia).
    by apply IH.
Qed.

Lemma process_items_fails actor adminUser bad rest acc sub st r :
  line_failure st bad = Some r →
  process_items actor adminUser (bad :: rest) acc sub st = (inl r, st).
Proof.
  unfold line_failure. rewrite process_items_cons.
  destruct (products st !! item_product bad) as [p|]; [|by intros [= <-]].
  destruct (stockCount p <? int_value (item_quantity bad)); [|done].
  by intros [= <-].
Qed.

(** POST /generate never answers with a bill, and never stores one: the
    document it builds has no number, and its save throws. *)
Lemma generate_no_bill
    actor now adminId reqItems dueDate tax discount notes st r st' :
  run (generate actor now adminId reqItems dueDate tax discount notes) st
    = (r, st') →
  (∃ code msg, r = Failure code msg ∨ r = ValidationErrors) ∧
  bills st' = bills st.
Proof.
  rewrite generate_run.
  destruct (generate_valid reqItems tax discount);
    [|intros [= <- <-]; split; [exists 0%nat, ""; by right | done]].
  destruct (users st !! adminId) as [adminUser|];
    [|intros [= <- <-]; split; [eexists _, _; by left | done]].
  destruct (bool_decide (role adminUser = role_admin));
    [|intros [= <- <-]; split; [eexists _, _; by left | done]].
  destruct (process_items actor adminUser reqItems [] zero st)
    as [[r1|[lines sub]] st1] eqn:Hloop.
  - intros [= <- <-].
    pose proof (process_items_state _ _ _ _ _ _ _ _ Hloop)
      as (through & rest & _ & _ & ->).
    split; [|apply allocate_all_bills].
    apply process_items_result in Hloop
      as (served & rest0 & _ & _ & bad & rest' & _ &
          [[(code & msg & -> & _)%line_failure_Some _]|(_ & _ & -> & _)]);
      eexists _, _; by left.
  - intros [= <- <-].
    pose proof (process_items_state _ _ _ _ _ _ _ _ Hloop)
      as (through & rest & _ & _ & ->).
    split; [eexists _, _; by left | apply allocate_all_bills].
Qed.

(** ** Decrease *)

(** C5. For every product in the store and every quantity from 1, POST
    /remove-stock does not fail on insufficient stock: it answers with
    success, the product is saved with the stock count
    [max(0, previousStock - quantity)], exactly one OUT record with both
    stock values is appended, and the new stock count is returned.  Nothing
    else in the store changes. *)
Theorem remove_stock_clamps_at_zero
    actor productId quantity reason reference notes st p :
  products st !! productId = Some p →
  1 ≤ quantity →
  let n := Z.max 0 (stockCount p - quantity) in
  let t := mkTransaction productId OUT quantity (stockCount p) n
             reason reference notes actor in
  ∃ st',
    run (remove_stock actor productId quantity reason reference notes) st =
      (Success 200 "Stock removed successfully" (t, n), st') ∧
    products st' !! productId =
      Some {| name := name p; price := price p; stockCount := n;
              inStock := n >? 0 |} ∧
    (∀ id, id ≠ productId → products st' !! id = products st !! id) ∧
    transactions st' = transactions st ++ [t] ∧
    users st' = users st ∧ bills st' = bills st.
Proof.
  intros Hp Hq n t. rewrite remove_stock_run, Hp.
  replace (1 <=? quantity) with true by (symmetry; apply Z.leb_le; lia).
  eexists. split; [reflexivity|]. simpl. split.
  - rewrite lookup_insert_eq. reflexivity.
  - split; [|done]. intros id Hne. by rewrite lookup_insert_ne.
Qed.

(** ** A single line that asks for more than there is *)

(** C2. A POST /generate request with one line whose quantity exceeds the
    stock count of its product produces no bill and leaves the store as it
    was: the stock count is unchanged, no record is appended, no bill is
    inserted.  When the request passes the validator and names an admin,
    the answer is the insufficient-stock failure, whose message carries the
    product name, the available and the requested quantity. *)
Theorem generate_single_line_insufficient
    actor now adminId item dueDate tax discount notes st p :
  products st !! item_product item = Some p →
  stockCount p < int_value (item_quantity item) →
  ∃ r,
    run (generate actor now adminId [item] dueDate tax discount notes) st =
      (r, st) ∧
    (∀ code msg b, r ≠ Success code msg b) ∧
    (generate_valid [item] tax discount = true →
     ∀ adminUser,
       users st !! adminId = Some adminUser → role adminUser = role_admin →
       r = Failure 400
             ("Insufficient stock for " +:+ name p +:+ ". Available: "
              +:+ pretty (stockCount p) +:+ ", Requested: "
              +:+ int_text (item_quantity item))).
Proof.
  intros Hp Hlt. rewrite generate_run.
  assert (Hloop : ∀ adminUser,
    process_items actor adminUser [item] [] zero st =
    (inl (Failure 400 (msg_insufficient_stock (name p) (stockCount p)
                         (item_quantity item))), st)).
  { intros adminUser. rewrite process_items_cons, Hp.
    by replace (stockCount p <? int_value (item_quantity item)) with true
      by (symmetry; apply Z.ltb_lt; lia). }
  destruct (generate_valid [item] tax discount).
  - destruct (users st !! adminId) as [adminUser|] eqn:Hadm.
    + destruct (bool_decide (role adminUser = role_admin)) eqn:Hrole.
      * rewrite Hloop. eexists. split; [reflexivity|]. split; [done|].
        intros _ a [= <-] _. reflexivity.
      * eexists. split; [reflexivity|]. split; [done|].
        intros _ a [= <-] Hr. apply bool_decide_eq_false in Hrole. done.
    + eexists. split; [reflexivity|]. split; [done|]. intros _ a [=].
  - eexists. split; [reflexivity|]. split; [done|]. intros [=].
Qed.

(** ** What a request does to the products *)

Lemma product_step_refl (o : option (Product M)) : product_step o o.
Proof. destruct o; simpl; auto. Qed.

Lemma product_step_trans (o1 o2 o3 : option (Product M)) :
  product_step o1 o2 → product_step o2 o3 → product_step o1 o3.
Proof.
  destruct o1 as [p1|], o2 as [p2|], o3 as [p3|]; simpl; try done.
  intros (Hn & Hp & Hs & Hf) (Hn' & Hp' & Hs' & Hf').
  repeat split; [congruence | congruence | auto |].
  destruct Hf' as [->|Hf']; [exact Hf | by right].
Qed.

Lemma Product_pre_save_flag_ok (p : Product M) : flag_ok (Product_pre_save p).
Proof. reflexivity. Qed.

Lemma saved_product_step (productId : string) p n (m : gmap string (Product M)) id :
  m !! productId = Some p →
  (0 ≤ stockCount p → 0 ≤ n) →
  product_step (m !! id)
    (<[productId := Product_pre_save (set_stockCount p n)]> m !! id).
Proof.
  intros Hp Hn. destruct (decide (id = productId)) as [->|Hne].
  - rewrite lookup_insert_eq, Hp. simpl. repeat split; [exact Hn|].
    right. apply Product_pre_save_flag_ok.
  - rewrite lookup_insert_ne by done. apply product_step_refl.
Qed.

Lemma allocate_products actor adminUser item st id :
  line_failure st item = None →
  product_step (products st !! id)
               (products (allocate actor adminUser item st) !! id).
Proof.
  intros (p & Hp & Hle)%line_failure_None.
  rewrite (allocate_debit _ _ _ _ _ Hp). simpl.
  apply saved_product_step; [done | lia].
Qed.

Lemma allocate_all_products actor adminUser items :
  ∀ st id,
    lines_checked actor adminUser items st →
    product_step (products st !! id)
                 (products (allocate_all actor adminUser items st) !! id).
Proof.
  induction items as [|item items IH]; intros st id Hav; simpl.
  - apply product_step_refl.
  - destruct Hav as [Hok Hav]. eapply product_step_trans.
    + by apply allocate_products.
    + by apply IH.
Qed.

(** What POST /generate leaves behind, whatever it answers: the store after
    the lines that the loop went through. *)
Lemma serve_generate actor now adminId items dueDate tax discount notes st :
  ∃ adminUser through rest,
    items = through ++ rest ∧
    lines_checked actor adminUser through st ∧
    serve (GenerateBill actor now adminId items dueDate tax discount notes) st
      = allocate_all actor adminUser through st.
Proof.
  unfold serve. rewrite generate_run.
  assert (Hstay : ∀ r : BillResponse M, ∃ adminUser through rest,
    items = through ++ rest ∧ lines_checked actor adminUser through st ∧
    (r, st).2 = allocate_all actor adminUser through st).
  { intros r. exists (mkUser role_user "" ""), [], items. simpl. auto. }
  destruct (generate_valid items tax discount); [|apply Hstay].
  destruct (users st !! adminId) as [adminUser|]; [|apply Hstay].
  destruct (bool_decide (role adminUser = role_admin)); [|apply Hstay].
  destruct (process_items actor adminUser items [] zero st)
    as [[r|[lines sub]] st1] eqn:Hloop;
    apply process_items_state in Hloop as (through & rest & -> & Hav & ->);
    by exists adminUser, through, rest.
Qed.

Lemma serve_products req st id :
  product_step (products st !! id) (products (serve req st) !! id).
Proof.
  destruct req as [actor productId quantity reason reference notes
                  |actor productId quantity reason reference notes
                  |actor productId newQuantity reason reference notes
                  |actor now adminId items dueDate tax discount notes
                  |now bid s].
  - unfold serve. rewrite add_stock_run.
    destruct (Z.leb_spec 1 (int_value quantity)); [|apply product_step_refl].
    destruct (products st !! productId) as [p|] eqn:Hp; [|apply product_step_refl].
    destruct (castNumber (js_plus (stockCount p) quantity)) as [n|] eqn:Hn;
      [|apply product_step_refl].
    simpl. apply saved_product_step; [done|].
    intros Hs. by eapply js_plus_nonneg.
  - unfold serve. rewrite remove_stock_run.
    destruct (Z.leb_spec 1 quantity); [|apply product_step_refl].
    destruct (products st !! productId) as [p|] eqn:Hp; [|apply product_step_refl].
    simpl. apply saved_product_step; [done | lia].
  - unfold serve. rewrite adjust_stock_run.
    destruct (Z.leb_spec 0 newQuantity); [|apply product_step_refl].
    destruct (products st !! productId) as [p|] eqn:Hp; [|apply product_step_refl].
    simpl. apply saved_product_step; [done | lia].
  - destruct (serve_generate actor now adminId items dueDate tax discount notes st)
      as (adminUser & through & rest & _ & Hav & ->).
    by apply allocate_all_products.
  - unfold serve. rewrite update_status_run.
    destruct (status_isIn s) as [s'|]; [|apply product_step_refl].
    destruct bid as [|key]; [apply product_step_refl|].
    destruct (bills st !! key) as [b|]; [|apply product_step_refl].
    destruct (falsy (billNumber b)); apply product_step_refl.
Qed.

Lemma serve_all_products reqs :
  ∀ st id, product_step (products st !! id) (products (serve_all reqs st) !! id).
Proof.
  induction reqs as [|req reqs IH]; intros st id; simpl.
  - apply product_step_refl.
  - eapply product_step_trans; [apply serve_products | apply IH].
Qed.

Lemma serve_stock_nonneg req st : stock_nonneg st → stock_nonneg (serve req st).
Proof.
  intros Hst id p' Hp'. pose proof (serve_products req st id) as Hstep.
  rewrite Hp' in Hstep. destruct (products st !! id) as [p|] eqn:Hp; [|done].
  destruct Hstep as (_ & _ & Hs & _). eauto.
Qed.

(** ** Stock never goes below zero *)

(** C6. A product whose stock count is non-negative keeps a non-negative
    stock count after any sequence of requests to the stock routes (add,
    remove, adjust; the handlers turn down a quantity below 1 and a target
    below 0) and, as well, to the billing routes. *)
Theorem stock_count_stays_nonneg reqs st id p :
  products st !! id = Some p →
  0 ≤ stockCount p →
  ∃ p', products (serve_all reqs st) !! id = Some p' ∧ 0 ≤ stockCount p'.
Proof.
  intros Hp Hs. pose proof (serve_all_products reqs st id) as Hstep.
  rewrite Hp in Hstep.
  destruct (products (serve_all reqs st) !! id) as [p'|]; [|done].
  destruct Hstep as (_ & _ & Hs' & _). eauto.
Qed.

(** ** The transaction log *)

Lemma allocate_transactions actor adminUser item st n :
  stock_nonneg st →
  line_failure st item = None →
  item_quantity item = int_number n →
  ∃ t, transactions (allocate actor adminUser item st) = transactions st ++ [t] ∧
       tx_consistent t ∧ txType t = OUT ∧
       reason t = "Admin stock allocation" ∧
       mkItem (txProduct t) (int_number (txQuantity t)) = item ∧
       newStock t - previousStock t = - txQuantity t.
Proof.
  intros Hst (p & Hp & Hle)%line_failure_None Hn. unfold allocate.
  rewrite Hp, (record_previous_number p item n Hn).
  eexists. split; [reflexivity|]. specialize (Hst _ _ Hp); simpl in Hst.
  unfold tx_consistent. simpl. destruct item as [id q]. simpl in *. subst q.
  simpl in *. repeat split; lia.
Qed.

Lemma allocate_stock_nonneg actor adminUser item st :
  stock_nonneg st →
  line_failure st item = None →
  stock_nonneg (allocate actor adminUser item st).
Proof.
  intros Hst Hok id p' Hp'.
  pose proof (allocate_products actor adminUser item st id Hok) as Hstep.
  rewrite Hp' in Hstep. destruct (products st !! id) as [p|] eqn:Hp; [|done].
  destruct Hstep as (_ & _ & Hs & _). eauto.
Qed.

Lemma allocate_all_transactions actor adminUser items :
  ∀ st,
    stock_nonneg st →
    lines_checked actor adminUser items st →
    Forall (λ item, ∃ n, item_quantity item = int_number n) items →
    ∃ new,
      transactions (allocate_all actor adminUser items st) =
        transactions st ++ new ∧
      length new = length items ∧
      Forall (λ t, tx_consistent t ∧ txType t = OUT ∧
                   reason t = "Admin stock allocation" ∧
                   mkItem (txProduct t) (int_number (txQuantity t)) ∈ items ∧
                   newStock t - previousStock t = - txQuantity t) new.
Proof.
  induction items as [|item items IH]; intros st Hst Hav Hnum; simpl.
  - exists []. by rewrite app_nil_r.
  - destruct Hav as [Hok Hav].
    apply Forall_cons in Hnum as [[n Hn] Hnum].
    destruct (allocate_transactions actor adminUser item st n Hst Hok Hn)
      as (t & Ht & Hc & Hty & Hr & Hit & Hex).
    destruct (IH _ (allocate_stock_nonneg actor adminUser item st Hst Hok)
                Hav Hnum)
      as (new & Hnew & Hlen & Hall).
    exists (t :: new). rewrite Hnew, Ht, <- app_assoc. split; [done|].
    split; [simpl; by rewrite Hlen|].
    constructor.
    + split_and!; try done. rewrite Hit. apply list_elem_of_here.
    + eapply Forall_impl; [exact Hall|]. simpl.
      intros t' (? & ? & ? & ? & ?). split_and!; try done.
      by apply list_elem_of_further.
Qed.

Lemma serve_transactions req st :
  stock_nonneg st →
  number_typed req →
  ∃ new,
    transactions (serve req st) = transactions st ++ new ∧
    Forall (λ t, tx_consistent t ∧ written_for req t) new.
Proof.
  intros Hst Hnum.
  destruct req as [actor productId quantity reason reference notes
                  |actor productId quantity reason reference notes
                  |actor productId newQuantity reason reference notes
                  |actor now adminId items dueDate tax discount notes
                  |now bid s].
  - destruct Hnum as [n ->]. unfold serve. rewrite add_stock_run. simpl.
    destruct (Z.leb_spec 1 n);
      [|exists []; by rewrite app_nil_r].
    destruct (products st !! productId) as [p|] eqn:Hp;
      [|exists []; by rewrite app_nil_r].
    eexists. split; [reflexivity|]. specialize (Hst _ _ Hp); simpl in Hst.
    constructor; [|constructor]. unfold tx_consistent. simpl.
    split_and!; try done; lia.
  - unfold serve. rewrite remove_stock_run.
    destruct (Z.leb_spec 1 quantity);
      [|exists []; by rewrite app_nil_r].
    destruct (products st !! productId) as [p|] eqn:Hp;
      [|exists []; by rewrite app_nil_r].
    eexists. split; [reflexivity|]. specialize (Hst _ _ Hp); simpl in Hst.
    constructor; [|constructor]. unfold tx_consistent. simpl.
    split_and!; try done; lia.
  - unfold serve. rewrite adjust_stock_run.
    destruct (Z.leb_spec 0 newQuantity);
      [|exists []; by rewrite app_nil_r].
    destruct (products st !! productId) as [p|] eqn:Hp;
      [|exists []; by rewrite app_nil_r].
    eexists. split; [reflexivity|]. specialize (Hst _ _ Hp); simpl in Hst.
    constructor; [|constructor]. unfold tx_consistent. simpl.
    split_and!; try done; lia.
  - destruct (serve_generate actor now adminId items dueDate tax discount notes st)
      as (adminUser & through & rest & -> & Hav & ->).
    simpl in Hnum. apply Forall_app in Hnum as [Hnum _].
    destruct (allocate_all_transactions actor adminUser through st Hst Hav Hnum)
      as (new & Hnew & _ & Hall).
    exists new. split; [done|].
    eapply Forall_impl; [exact Hall|]. simpl.
    intros t (? & ? & ? & ? & ?). split_and!; try done.
    apply elem_of_app. by left.
  - unfold serve. rewrite update_status_run.
    destruct (status_isIn s) as [s'|]; [|exists []; by rewrite app_nil_r].
    destruct bid as [|key]; [exists []; by rewrite app_nil_r|].
    destruct (bills st !! key) as [b|]; [|exists []; by rewrite app_nil_r].
    destruct (falsy (billNumber b)); exists []; by rewrite app_nil_r.
Qed.

(** C3, as the code has it.  From a store with non-negative stock counts,
    every record that a sequence of requests whose quantities arrive as
    JSON numbers appends to the log (the log is only ever appended to) has
    non-negative previous and new stock; an IN record has
    newStock - previousStock = quantity; an OUT record has
    newStock = max(0, previousStock - quantity), which is
    previousStock - quantity for an allocation of POST /generate and for a
    removal that the stock covers, and 0 for a removal that asks for more;
    an ADJUSTMENT record has quantity = |newStock - previousStock| and its
    new stock is the target of the request. *)
Theorem transactions_consistent reqs :
  ∀ st,
    stock_nonneg st →
    Forall number_typed reqs →
    ∃ new,
      transactions (serve_all reqs st) = transactions st ++ new ∧
      Forall (λ t, tx_consistent t ∧ ∃ req, req ∈ reqs ∧ written_for req t) new.
Proof.
  induction reqs as [|req reqs IH]; intros st Hst Hnum; simpl.
  - exists []. by rewrite app_nil_r.
  - apply Forall_cons in Hnum as [Hreq Hnum].
    destruct (serve_transactions req st Hst Hreq) as (new1 & Hnew1 & Hall1).
    destruct (IH _ (serve_stock_nonneg req st Hst) Hnum)
      as (new2 & Hnew2 & Hall2).
    exists (new1 ++ new2). rewrite Hnew2, Hnew1, <- app_assoc. split; [done|].
    apply Forall_app. split.
    + eapply Forall_impl; [exact Hall1|]. simpl. intros t [? ?].
      split; [done|]. exists req. split; [apply list_elem_of_here | done].
    + eapply Forall_impl; [exact Hall2|]. simpl. intros t [? (r & ? & ?)].
      split; [done|]. exists r. split; [by apply list_elem_of_further | done].
Qed.

(** ** The in-stock flag *)

Lemma product_step_flag_ok p (o' : option (Product M)) :
  product_step (Some p) o' → flag_ok p → ∃ p', o' = Some p' ∧ flag_ok p'.
Proof.
  destruct o' as [p'|]; [|done]. intros (_ & _ & _ & [-> | Hf]) Hp; eauto.
Qed.

Lemma allocate_all_flag_ok actor adminUser items :
  ∀ st line,
    lines_checked actor adminUser items st →
    line ∈ items →
    ∃ p', products (allocate_all actor adminUser items st)
            !! item_product line = Some p' ∧ flag_ok p'.
Proof.
  induction items as [|item items IH]; intros st line Hav Hin.
  - by apply elem_of_nil in Hin.
  - destruct Hav as [Hok Hav]. simpl.
    apply elem_of_cons in Hin as [-> | Hin]; [|by apply IH].
    pose proof (allocate_all_products actor adminUser items
                  (allocate actor adminUser item st) (item_product item) Hav)
      as Hstep.
    apply line_failure_None in Hok as (p & Hp & _).
    rewrite (allocate_debit _ _ _ _ _ Hp) in Hstep at 1. simpl in Hstep.
    rewrite lookup_insert_eq in Hstep.
    eapply product_step_flag_ok; [exact Hstep | apply Product_pre_save_flag_ok].
Qed.

(** C10. Saving a product document stores it with
    [inStock = (stockCount > 0)] and with the stock count it was given;
    after any request to the five routes every product document of the
    store is either exactly as it was before the request or carries a flag
    that agrees with its stock count; and the products that a successful
    stock request or a bill line that the loop debits addresses are of the
    second kind. *)
Theorem inStock_follows_stockCount :
  (∀ (R : Type) id (doc : Product M) st,
     ∃ doc',
       Product_save (R := R) id doc st =
         (inr doc',
          {| products := <[id := doc']> (products st);
             users := users st;
             transactions := transactions st;
             bills := bills st |}) ∧
       stockCount doc' = stockCount doc ∧
       inStock doc' = (stockCount doc' >? 0)) ∧
  (∀ req st id p',
     products (serve req st) !! id = Some p' →
     products st !! id = Some p' ∨ inStock p' = (stockCount p' >? 0)) ∧
  (∀ req st id p,
     products st !! id = Some p →
     match req with
     | AddStock _ productId quantity _ _ _ =>
         productId = id ∧ 1 ≤ int_value quantity ∧
         is_Some (castNumber (js_plus (stockCount p) quantity))
     | RemoveStock _ productId quantity _ _ _ =>
         productId = id ∧ 1 ≤ quantity
     | AdjustStock _ productId newQuantity _ _ _ =>
         productId = id ∧ 0 ≤ newQuantity
     | GenerateBill _ _ _ _ _ _ _ _ | UpdateStatus _ _ _ => False
     end →
     ∃ p', products (serve req st) !! id = Some p' ∧
           inStock p' = (stockCount p' >? 0)) ∧
  (∀ actor now adminId reqItems dueDate tax discount notes st code msg b st'
     line,
     run (generate actor now adminId reqItems dueDate tax discount notes) st
       = (Success code msg b, st') →
     line ∈ reqItems →
     ∃ p', products st' !! item_product line = Some p' ∧
           inStock p' = (stockCount p' >? 0)) ∧
  (∀ actor now adminId reqItems dueDate tax discount notes st,
     ∃ adminUser through rest,
       reqItems = through ++ rest ∧
       lines_checked actor adminUser through st ∧
       serve (GenerateBill actor now adminId reqItems dueDate tax discount
                notes) st = allocate_all actor adminUser through st ∧
       ∀ line,
         line ∈ through →
         ∃ p', products
                 (serve (GenerateBill actor now adminId reqItems dueDate tax
                           discount notes) st) !! item_product line = Some p' ∧
               inStock p' = (stockCount p' >? 0)).
Proof.
  split_and!.
  - intros R id doc st. eexists. split; [reflexivity|]. done.
  - intros req st id p' Hp'. pose proof (serve_products req st id) as Hstep.
    rewrite Hp' in Hstep. destruct (products st !! id) as [p|]; [|done].
    destruct Hstep as (_ & _ & _ & [-> | Hf]); auto.
  - intros req st id p Hp Hreq.
    destruct req as [actor productId quantity reason reference notes
                    |actor productId quantity reason reference notes
                    |actor productId newQuantity reason reference notes
                    |actor now adminId items dueDate tax discount notes
                    |now bid s]; [| | |done|done].
    + destruct Hreq as (-> & Hq & [n Hn]). unfold serve.
      rewrite add_stock_run, Hp, Hn.
      replace (1 <=? int_value quantity) with true
        by (symmetry; apply Z.leb_le; lia).
      simpl. rewrite lookup_insert_eq. eauto.
    + destruct Hreq as [-> Hq]. unfold serve. rewrite remove_stock_run, Hp.
      replace (1 <=? quantity) with true by (symmetry; apply Z.leb_le; lia).
      simpl. rewrite lookup_insert_eq. eauto.
    + destruct Hreq as [-> Hq]. unfold serve. rewrite adjust_stock_run, Hp.
      replace (0 <=? newQuantity) with true by (symmetry; apply Z.leb_le; lia).
      simpl. rewrite lookup_insert_eq. eauto.
  - intros actor now adminId reqItems dueDate tax discount notes st code msg b
      st' line [(c & m & [?|?]) _]%generate_no_bill; done.
  - intros actor now adminId reqItems dueDate tax discount notes st.
    destruct (serve_generate actor now adminId reqItems dueDate tax discount
                notes st) as (adminUser & through & rest & -> & Hav & Hserve).
    exists adminUser, through, rest. split_and!; try done.
    intros line Hin. rewrite Hserve. by apply allocate_all_flag_ok.
Qed.

(** ** A line that fails after others were served *)

Lemma allocate_all_served_length actor adminUser items :
  ∀ st,
    lines_available actor adminUser items st →
    length (transactions (allocate_all actor adminUser items st)) =
    (length (transactions st) + length items)%nat.
Proof.
  induction items as [|item items IH]; intros st Hav; simpl.
  - lia.
  - destruct Hav as (Hok & (p & Hp & [previous Hprev]) & Hav).
    rewrite IH by done.
    unfold allocate. rewrite Hp, Hprev. simpl. rewrite length_app. simpl. lia.
Qed.

(** C1, as the code has it.  POST /generate checks a line immediately
    before it debits that line, line by line in request order.  When the
    request passes the validator and names an admin, and the loop reaches a
    line that fails its check (product not found, or stock below the
    requested quantity) after it has served the lines before it, the answer
    is the failure of that line and no bill is inserted; the lines before
    it have been debited and have one OUT record each, and stay so; the
    failing line and the lines after it are not served.  When the first
    line is the failing one, the store is exactly as before. *)
Theorem generate_failure_keeps_served_lines
    actor now adminId served bad rest dueDate tax discount notes st adminUser
    r :
  generate_valid (served ++ bad :: rest) tax discount = true →
  users st !! adminId = Some adminUser →
  role adminUser = role_admin →
  lines_available actor adminUser served st →
  line_failure (allocate_all actor adminUser served st) bad = Some r →
  ∃ st',
    run (generate actor now adminId (served ++ bad :: rest) dueDate tax
           discount notes) st = (r, st') ∧
    (∃ code msg, r = Failure code msg ∧ (code = 404%nat ∨ code = 400%nat)) ∧
    st' = allocate_all actor adminUser served st ∧
    bills st' = bills st ∧
    length (transactions st') =
      (length (transactions st) + length served)%nat ∧
    (served = [] → st' = st).
Proof.
  intros Hvalid Hadm Hrole Hav Hbad. rewrite generate_run, Hvalid, Hadm.
  rewrite (bool_decide_eq_true_2 _ Hrole).
  destruct (process_items_app actor adminUser served (bad :: rest) [] zero st
              Hav) as (acc' & sub' & ->).
  rewrite (process_items_fails _ _ _ _ _ _ _ _ Hbad).
  eexists. split; [reflexivity|]. split_and!.
  - by eapply line_failure_Some.
  - done.
  - apply allocate_all_bills.
  - by apply allocate_all_served_length.
  - by intros ->.
Qed.

(** ** Bill status *)

Lemma serve_bills_stock (req : Request M) st :
  match req with UpdateStatus _ _ _ => False | _ => True end →
  bills (serve req st) = bills st.
Proof.
  destruct req as [actor productId quantity reason reference notes
                  |actor productId quantity reason reference notes
                  |actor productId newQuantity reason reference notes
                  |actor now adminId items dueDate tax discount notes
                  |now bid s]; intros Hreq; [| | | |done].
  - unfold serve. rewrite add_stock_run.
    destruct (1 <=? int_value quantity); [|done].
    destruct (products st !! productId) as [p|]; [|done].
    by destruct (castNumber (js_plus (stockCount p) quantity)).
  - unfold serve. rewrite remove_stock_run. destruct (1 <=? quantity); [|done].
    by destruct (products st !! productId).
  - unfold serve. rewrite adjust_stock_run.
    destruct (0 <=? newQuantity); [|done].
    by destruct (products st !! productId).
  - destruct (serve_generate actor now adminId items dueDate tax discount notes st)
      as (adminUser & through & rest & _ & _ & ->).
    apply allocate_all_bills.
Qed.


(** ** Bill numbers *)

Lemma falsy_false (s : string) : s ≠ "" → falsy (Some s) = false.
Proof. intros Hs. simpl. by apply String.eqb_neq. Qed.

(** C7.  The [pre('save')] hook fills in a missing (or empty) bill number
    with "BILL-", the clock's millisecond timestamp in decimal, "-", and in
    decimal the number of bills in the collection plus one, and keeps a
    number that is present.  A save, though, validates the document before
    it runs the hook: a document without a number is refused there, the
    hook is not reached and nothing is stored.  The document that POST
    /generate builds has no number.  PATCH /:id/status keeps the number of
    the bill it saves. *)
Theorem bill_number_assigned_on_save :
  (∀ (R : Type) now (doc : Bill M) st,
     billNumber doc = None ∨ billNumber doc = Some "" →
     Bill_pre_save (R := R) now doc st =
       (inr (set_billNumber doc
               ("BILL-" +:+ pretty now +:+ "-"
                +:+ pretty (N.of_nat (length (bills st)) + 1)%N)), st)) ∧
  (∀ (R : Type) now (doc : Bill M) st s,
     billNumber doc = Some s → s ≠ "" →
     Bill_pre_save (R := R) now doc st = (inr doc, st)) ∧
  (∀ (A : Type) now (doc : Bill M) st,
     billNumber doc = None ∨ billNumber doc = Some "" →
     Bill_save_new (A := A) now doc st =
       (inl (Failure 500 "Server error"), st)) ∧
  (∀ adminId lines sub tax discount total dueDate notes actor,
     billNumber
       (new_Bill (M := M) adminId lines sub tax discount total dueDate notes
          actor) = None) ∧
  (∀ now id s st code msg b st' b0 n,
     bills st !! id = Some b0 → billNumber b0 = Some n → n ≠ "" →
     run (update_status now (castable id) s) st = (Success code msg b, st') →
     billNumber b = Some n ∧ bills st' !! id = Some b).
Proof.
  split_and!.
  - intros R now doc st Hnum. unfold Bill_pre_save.
    assert (falsy (billNumber doc) = true) as -> by (by destruct Hnum as [-> | ->]).
    reflexivity.
  - intros R now doc st s Hnum Hs. unfold Bill_pre_save.
    by rewrite Hnum, (falsy_false s Hs).
  - intros A now doc st Hnum. apply Bill_save_new_unnumbered.
    by destruct Hnum as [-> | ->].
  - done.
  - intros now id s st code msg b st' b0 n Hb0 Hn Hne.
    rewrite update_status_run, Hb0.
    destruct (status_isIn s) as [s'|]; [|done].
    rewrite Hn, (falsy_false n Hne). intros [= _ _ <- <-]. simpl.
    split; [done|]. apply list_lookup_insert_eq. by eapply lookup_lt_Some.
Qed.

(** ** Pricing *)

(** C4.  The document that POST /generate builds has one line per request
    line, in request order, with the requested product and quantity; the
    unit price is the price of that product in the store the request met;
    the total price of a line is its unit price times its quantity; the
    subtotal is the sum of the lines' total prices; and when tax and
    discount are absent or arrive as JSON numbers, the total is subtotal
    plus tax minus discount.  The save of that document throws, so the
    route answers 500 and no bill is produced: whatever the request and the
    store, the answer is not a bill and the collection is as it was. *)
Theorem generate_bill_pricing :
  (∀ actor adminUser reqItems st lines sub st' adminId reqTax reqDiscount
     dueDate notes now,
     process_items actor adminUser reqItems [] zero st
       = (inr (lines, sub), st') →
     let tax' := default (amount_number zero) reqTax in
     let discount' := default (amount_number zero) reqDiscount in
     let b :=
       new_Bill adminId lines sub tax' discount' (js_total sub tax' discount')
         dueDate notes actor in
     Forall2 (λ item line,
                product line = item_product item ∧
                quantity line = int_value (item_quantity item) ∧
                ∃ p, products st !! item_product item = Some p ∧
                     unitPrice line = price p)
             reqItems (items b) ∧
     Forall (λ line, totalPrice line = times (unitPrice line) (quantity line))
            (items b) ∧
     subtotal b = sum_totalPrice (items b) ∧
     (∀ t d, tax' = amount_number t → discount' = amount_number d →
             tax b = t ∧ discount b = d ∧
             total b = minus (plus (subtotal b) (tax b)) (discount b)) ∧
     Bill_save_new (A := Bill M) now b st' =
       (inl (Failure 500 "Server error"), st')) ∧
  (∀ actor now adminId reqItems dueDate reqTax reqDiscount notes st r st',
     run (generate actor now adminId reqItems dueDate reqTax reqDiscount notes)
       st = (r, st') →
     (∀ code msg b, r ≠ Success code msg b) ∧ bills st' = bills st).
Proof.
  split.
  - intros actor adminUser reqItems st lines sub st' adminId reqTax reqDiscount
      dueDate notes now Hloop tax' discount' b.
    apply process_items_result in Hloop
      as (served & rest & _ & _ & _ & _ & new & -> & -> & Hall).
    simpl. split_and!; try done.
    + eapply Forall2_impl; [exact Hall|].
      intros item line (p & Hp & ->). simpl. eauto.
    + clear -Hall. induction Hall as [|item line ? ? (p & _ & ->) _ IH];
        constructor; [reflexivity | exact IH].
    + intros t d Ht Hd. subst b. unfold js_total. rewrite Ht, Hd. done.
  - intros actor now adminId reqItems dueDate reqTax reqDiscount notes st r st'
      [(c & m & [->| ->]) Hb]%generate_no_bill; done.
Qed.

(** ** Saves that interleave *)

Lemma try_insert_fresh (doc : Bill M) collection :
  billNumber doc ∉ billNumber <$> collection →
  try_insert doc collection = (inserted doc, collection ++ [doc]).
Proof. intros Hfresh. unfold try_insert. by rewrite bool_decide_eq_false_2. Qed.


(** The steps of a save that runs alone are [bill.save()]. *)
Lemma task_steps_are_Bill_save_new (A : Type) now (doc : Bill M) st :
  ∃ task collection,
    run_two [(true, now); (true, now); (true, now)]
      (at_validate doc) (at_validate doc) (bills st) =
      (task, at_validate doc, collection) ∧
    match Bill_save_new (A := A) now doc st with
    | (inl _, st') => (∃ doc', task = thrown doc') ∧ st' = st ∧
                      collection = bills st
    | (inr doc', st') => task = inserted doc' ∧ collection = bills st' ∧
                         bills st' = bills st ++ [doc']
    end.
Proof.
  unfold Bill_save_new, Bill_pre_save. simpl. unfold Bill_validate.
  destruct (falsy (billNumber doc)) eqn:Hnum; simpl.
  - eexists _, _. split; [reflexivity|]. eauto.
  - rewrite Hnum. unfold try_insert, bind, ret. simpl.
    destruct (bool_decide (billNumber doc ∈ billNumber <$> bills st)); simpl;
      eexists _, _; (split; [reflexivity|]); eauto.
Qed.


End Properties.

(** ** The scenarios of the spec, run on the handlers *)

(** Three of five pieces billed to an admin: the product is debited from 5
    to 2 and one OUT record is written; the save of the bill then throws,
    the route answers 500 and no bill is stored. *)
Example scenario_first_bill :
  run (generate "root" 1700000000000%N "a1" [mkItem "p1" (int_number 3)] 0%N
         None None None) shop
    = (Failure 500 "Server error", shop_partly_served) ∧
  stockCount <$> products shop_partly_served !! "p1" = Some 2 ∧
  (λ t, (txType t, txQuantity t, previousStock t, newStock t))
    <$> transactions shop_partly_served = [(OUT, 3, 5, 2)] ∧
  bills shop_partly_served = [].
Proof. split_and!; by vm_compute. Qed.

(** Setting the stock of the same product to zero at a stocktake. *)
Example scenario_stocktake :
  (run (adjust_stock "root" "p1" 0 "stocktake" None None) shop_after_bill).1
  = Success 200 "Stock adjusted successfully"
      (mkTransaction "p1" ADJUSTMENT 2 2 0 "stocktake" None None "root", 0).
Proof. by vm_compute. Qed.

(** ** Quantities and amounts that arrive as strings *)

(** A quantity "4" added to a stock of 5: [5 + "4"] is "54", the product is
    saved with 54 pieces and the IN record goes from 5 to 54 with
    quantity 4. *)
Example add_stock_string_quantity :
  let out :=
    run (add_stock "root" "p1" (int_string no_sign 0 4) "delivery" None None)
      shop in
  out.1 = Success 200 "Stock added successfully"
            (mkTransaction "p1" IN 4 5 54 "delivery" None None "root",
             js_string "54") ∧
  stockCount <$> products out.2 !! "p1" = Some 54 ∧
  ¬ tx_consistent (mkTransaction "p1" IN 4 5 54 "delivery" None None "root").
Proof.
  split_and!; try (vm_compute; reflexivity).
  unfold tx_consistent. simpl. lia.
Qed.

(** A quantity "+4" passes the validator, and [5 + "+4"] is "5+4", which
    does not cast: the save throws, the route answers 500 and the store is
    as it was. *)
Example add_stock_signed_string_quantity :
  run (add_stock "root" "p1" (int_string plus_sign 0 4) "delivery" None None)
    shop
  = (Failure 500 "Server error", shop).
Proof. by vm_compute. Qed.

(** A line of "3" pieces of a product that has 5: the product is debited to
    2, and the record's previous stock is [2 + "3"], that is 23. *)
Example generate_string_quantity :
  let out :=
    run (generate "root" 1700000000000%N "a1"
           [mkItem "p1" (int_string no_sign 0 3)] 0%N None None None) shop in
  out.1 = Failure 500 "Server error" ∧
  stockCount <$> products out.2 !! "p1" = Some 2 ∧
  (λ t, (txType t, txQuantity t, previousStock t, newStock t))
    <$> transactions out.2 = [(OUT, 3, 23, 2)] ∧
  bills out.2 = [].
Proof. split_and!; by vm_compute. Qed.

(** A tax "5" on a subtotal of 30: [30 + "5" - 0] is 305. *)
Example total_string_tax :
  js_total (M := Z) 30 (amount_string "5") (amount_number 0) = 305 ∧
  js_total (M := Z) 30 (amount_number 5) (amount_number 0) = 35.
Proof. split; by vm_compute. Qed.

(** ** Where the code differs from the stated claims *)

(** C1 as stated fails: the second of two lines is short of stock, the
    request is answered with the insufficient-stock failure, and yet the
    first line's product has been debited from 5 to 2 and one record has
    been appended. *)
Lemma generate_is_not_all_or_nothing :
  let out :=
    run (generate "root" 1700000000000%N "a1" two_lines 0%N None None None)
      shop in
  out.1 = Failure 400
            "Insufficient stock for Wayfarer. Available: 1, Requested: 2" ∧
  bills out.2 = bills shop ∧
  stockCount <$> products shop !! "p1" = Some 5 ∧
  stockCount <$> products out.2 !! "p1" = Some 2 ∧
  transactions shop = [] ∧
  length (transactions out.2) = 1%nat ∧
  ¬ (products out.2 = products shop ∧ transactions out.2 = transactions shop).
Proof.
  split_and!; try (vm_compute; reflexivity).
  intros [_ Htx]. vm_compute in Htx. discriminate Htx.
Qed.

(** C3 as stated fails: removing 5 pieces of a product that has 2 writes an
    OUT record from 2 to 0 with quantity 5, so newStock - previousStock is
    -2 and not -5. *)
Lemma removal_beyond_stock_is_not_exact :
  let t := mkTransaction "p1" OUT 5 2 0 "breakage" None None "root" in
  stock_nonneg shop_after_bill ∧
  transactions (serve (RemoveStock "root" "p1" 5 "breakage" None None)
                  shop_after_bill)
    = transactions shop_after_bill ++ [t] ∧
  newStock t - previousStock t ≠ - txQuantity t ∧
  ¬ tx_exact t.
Proof.
  split_and!.
  - unfold stock_nonneg. apply (bool_decide_unpack _). by vm_compute.
  - vm_compute. reflexivity.
  - simpl. lia.
  - unfold tx_exact. simpl. lia.
Qed.


(** ** The theorems at work on the example store *)

Lemma generate_failure_keeps_served_lines_witness :
  generate_valid (M := Z)
    ([mkItem "p1" (int_number 3)] ++ mkItem "p2" (int_number 2) :: [])
    None None = true ∧
  users shop !! "a1" = Some ada ∧
  role ada = role_admin ∧
  lines_available "root" ada [mkItem "p1" (int_number 3)] shop ∧
  line_failure (allocate_all "root" ada [mkItem "p1" (int_number 3)] shop)
    (mkItem "p2" (int_number 2))
    = Some (Failure 400
              "Insufficient stock for Wayfarer. Available: 1, Requested: 2") ∧
  ∃ st',
    run (generate "root" 1700000000000%N "a1"
           ([mkItem "p1" (int_number 3)] ++ mkItem "p2" (int_number 2) :: [])
           0%N None None None) shop
      = (Failure 400
           "Insufficient stock for Wayfarer. Available: 1, Requested: 2",
         st') ∧
    (∃ code msg,
       Failure (A := Bill Z) 400
         "Insufficient stock for Wayfarer. Available: 1, Requested: 2"
         = Failure code msg ∧
       (code = 404%nat ∨ code = 400%nat)) ∧
    st' = allocate_all "root" ada [mkItem "p1" (int_number 3)] shop ∧
    bills st' = bills shop ∧
    length (transactions st') =
      (length (transactions shop) + length [mkItem "p1" (int_number 3)])%nat ∧
    ([mkItem "p1" (int_number 3)] = [] → st' = shop).
Proof.
  assert (Hvalid : generate_valid (M := Z)
    ([mkItem "p1" (int_number 3)] ++ mkItem "p2" (int_number 2) :: [])
    None None = true) by (vm_compute; reflexivity).
  assert (Hadm : users shop !! "a1" = Some ada) by (vm_compute; reflexivity).
  assert (Hav : lines_available "root" ada [mkItem "p1" (int_number 3)] shop).
  { split; [vm_compute; reflexivity|]. split; [|exact I].
    exists aviator. split; [vm_compute; reflexivity|].
    eexists. vm_compute. reflexivity. }
  assert (Hbad :
    line_failure (allocate_all "root" ada [mkItem "p1" (int_number 3)] shop)
      (mkItem "p2" (int_number 2))
    = Some (Failure 400
              "Insufficient stock for Wayfarer. Available: 1, Requested: 2"))
    by (vm_compute; reflexivity).
  split; [exact Hvalid|]. split; [exact Hadm|]. split; [reflexivity|].
  split; [exact Hav|]. split; [exact Hbad|].
  exact (generate_failure_keeps_served_lines (M := Z)
           "root" 1700000000000%N "a1" [mkItem "p1" (int_number 3)]
           (mkItem "p2" (int_number 2)) [] 0%N None None None shop ada _
           Hvalid Hadm eq_refl Hav Hbad).
Defined.

Lemma generate_single_line_insufficient_witness :
  products shop_after_bill !! "p1" =
    Some {| name := "Aviator"; price := 10; stockCount := 2;
            inStock := true |} ∧
  2 < 5 ∧
  ∃ r,
    run (generate "root" 1700000000001%N "a1" [mkItem "p1" (int_number 5)] 0%N
           None None None) shop_after_bill = (r, shop_after_bill) ∧
    (∀ code msg b, r ≠ Success code msg b) ∧
    (generate_valid (M := Z) [mkItem "p1" (int_number 5)] None None = true →
     ∀ adminUser,
       users shop_after_bill !! "a1" = Some adminUser →
       role adminUser = role_admin →
       r = Failure 400
             ("Insufficient stock for " +:+ "Aviator" +:+ ". Available: "
              +:+ pretty 2 +:+ ", Requested: " +:+ pretty 5)).
Proof.
  assert (Hp : products shop_after_bill !! "p1" =
               Some {| name := "Aviator"; price := 10; stockCount := 2;
                       inStock := true |}) by (vm_compute; reflexivity).
  split; [exact Hp|]. split; [lia|].
  apply (generate_single_line_insufficient (M := Z)
           "root" 1700000000001%N "a1" (mkItem "p1" (int_number 5)) 0%N
           None None None shop_after_bill _ Hp).
  simpl. lia.
Defined.

Lemma transactions_consistent_witness :
  stock_nonneg shop ∧
  Forall number_typed stock_requests ∧
  ∃ new,
    transactions (serve_all stock_requests shop) = transactions shop ++ new ∧
    Forall (λ t, tx_consistent t ∧
                 ∃ req, req ∈ stock_requests ∧ written_for req t) new.
Proof.
  assert (Hst : stock_nonneg shop).
  { unfold stock_nonneg. apply (bool_decide_unpack _). vm_compute. exact I. }
  assert (Hnum : Forall number_typed stock_requests).
  { repeat constructor. simpl. by exists 4. }
  split; [exact Hst|]. split; [exact Hnum|].
  exact (transactions_consistent (M := Z) stock_requests shop Hst Hnum).
Defined.

Lemma generate_bill_pricing_witness :
  process_items "root" ada [mkItem "p1" (int_number 3)] [] 0 shop
    = (inr ([{| product := "p1"; quantity := 3; unitPrice := 10;
                totalPrice := 30 |}], 30), shop_partly_served) ∧
  Forall2 (λ item line,
             product line = item_product item ∧
             quantity line = int_value (item_quantity item) ∧
             ∃ p, products shop !! item_product item = Some p ∧
                  unitPrice line = price p)
          [mkItem "p1" (int_number 3)] (items first_document) ∧
  Forall (λ line, totalPrice line = times (unitPrice line) (quantity line))
         (items first_document) ∧
  subtotal first_document = sum_totalPrice (items first_document) ∧
  (∀ t d, amount_number 0 = amount_number t →
          amount_number 0 = amount_number d →
          tax first_document = t ∧ discount first_document = d ∧
          total first_document =
            minus (plus (subtotal first_document) (tax first_document))
              (discount first_document)) ∧
  Bill_save_new (A := Bill Z) 1700000000000%N first_document
    shop_partly_served
    = (inl (Failure 500 "Server error"), shop_partly_served).
Proof.
  assert (Hloop :
    process_items "root" ada [mkItem "p1" (int_number 3)] [] 0 shop
    = (inr ([{| product := "p1"; quantity := 3; unitPrice := 10;
                totalPrice := 30 |}], 30), shop_partly_served))
    by (vm_compute; reflexivity).
  split; [exact Hloop|].
  destruct (generate_bill_pricing (M := Z)) as [Hdoc _].
  exact (Hdoc "root" ada [mkItem "p1" (int_number 3)] shop _ 30
           shop_partly_served "a1" None None 0%N None 1700000000000%N Hloop).
Defined.

Lemma remove_stock_clamps_at_zero_witness :
  products shop !! "p1" = Some aviator ∧
  1 ≤ 7 ∧
  ∃ st',
    run (remove_stock "root" "p1" 7 "breakage" None None) shop =
      (Success 200 "Stock removed successfully"
         (mkTransaction "p1" OUT 7 5 0 "breakage" None None "root", 0), st') ∧
    products st' !! "p1" =
      Some {| name := "Aviator"; price := 10; stockCount := 0;
              inStock := false |} ∧
    (∀ id, id ≠ "p1" → products st' !! id = products shop !! id) ∧
    transactions st' =
      transactions shop ++
      [mkTransaction "p1" OUT 7 5 0 "breakage" None None "root"] ∧
    users st' = users shop ∧ bills st' = bills shop.
Proof.
  assert (Hp : products shop !! "p1" = Some aviator) by (vm_compute; reflexivity).
  split; [exact Hp|]. split; [lia|].
  exact (remove_stock_clamps_at_zero (M := Z)
           "root" "p1" 7 "breakage" None None shop aviator Hp ltac:(lia)).
Defined.

Lemma stock_count_stays_nonneg_witness :
  products shop !! "p2" = Some wayfarer ∧
  0 ≤ stockCount wayfarer ∧
  ∃ p',
    products (serve_all stock_requests shop) !! "p2" = Some p' ∧
    0 ≤ stockCount p'.
Proof.
  assert (Hp : products shop !! "p2" = Some wayfarer) by (vm_compute; reflexivity).
  split; [exact Hp|]. split; [simpl; lia|].
  apply (stock_count_stays_nonneg (M := Z) stock_requests shop "p2" wayfarer Hp).
  simpl. lia.
Defined.

Lemma bill_number_assigned_on_save_witness :
  (billNumber first_document = None ∨ billNumber first_document = Some "") ∧
  Bill_pre_save (R := unit) 1700000000000%N first_document shop_partly_served
    = (inr (set_billNumber first_document
              ("BILL-" +:+ pretty 1700000000000%N +:+ "-"
               +:+ pretty (N.of_nat (length (bills shop_partly_served)) + 1)%N)),
       shop_partly_served) ∧
  Bill_save_new (A := Bill Z) 1700000000000%N first_document
    shop_partly_served
    = (inl (Failure 500 "Server error"), shop_partly_served).
Proof.
  assert (Hnum : billNumber first_document = None ∨
                 billNumber first_document = Some "") by (left; reflexivity).
  split; [exact Hnum|].
  destruct (bill_number_assigned_on_save (M := Z)) as (Hhook & _ & Hsave & _).
  split.
  - exact (Hhook unit 1700000000000%N first_document shop_partly_served Hnum).
  - exact (Hsave (Bill Z) 1700000000000%N first_document shop_partly_served
             Hnum).
Defined.



Lemma inStock_follows_stockCount_witness :
  products shop !! "p2" = Some wayfarer ∧
  ∃ p',
    products (serve (RemoveStock "root" "p2" 3 "breakage" None None) shop)
      !! "p2" = Some p' ∧
    inStock p' = (stockCount p' >? 0).
Proof.
  assert (Hp : products shop !! "p2" = Some wayfarer) by (vm_compute; reflexivity).
  split; [exact Hp|].
  destruct (inStock_follows_stockCount (M := Z)) as (_ & _ & Hstock & _).
  apply (Hstock (RemoveStock "root" "p2" 3 "breakage" None None) shop "p2"
           wayfarer Hp).
  split; [reflexivity | lia].
Defined.

(** Over the integers the running sum of the loop is the sum of the list. *)
Lemma sum_totalPrice_Z (lines : list (BillLine Z)) :
  sum_totalPrice lines = foldr Z.add 0 (totalPrice <$> lines).
Proof.
  unfold sum_totalPrice.
  assert (Hgen : ∀ a, foldl (λ acc line, plus acc (totalPrice line)) a lines =
                      a + foldr Z.add 0 (totalPrice <$> lines)).
  { induction lines as [|line lines IH]; intros a; simpl; [lia|].
    rewrite IH. symmetry. apply Z.add_assoc. }
  rewrite Hgen. reflexivity.
Qed.

(** The flag of the product that a removal empties. *)
Example removal_clears_inStock :
  inStock <$> products (serve (RemoveStock "root" "p2" 3 "breakage" None None)
                          shop) !! "p2" = Some false.
Proof. by vm_compute. Qed.

(** * Further properties of the routes *)

Section MoreProperties.

Context {M : Type} `{Amount M} `{AmountText M}.
Implicit Types (st : State M) (p : Product M) (item : Item).

(** ** The stock routes, one request at a time *)

(** POST /add-stock on a stored product with a quantity from 1 saves the
    product with what [previousStock + quantity] casts to: the sum for a
    quantity that is a JSON number, the number that the two decimals read
    as when written one after the other for a quantity that is a string.
    The route then answers with success, exactly one IN record with both
    stock values is appended, the value of [previousStock + quantity] is
    returned and nothing else in the store changes.  When the value does
    not cast, the route answers 500 and the store is as it was. *)
Theorem add_stock_adds actor productId quantity reason reference notes st p :
  products st !! productId = Some p →
  1 ≤ int_value quantity →
  match castNumber (js_plus (stockCount p) quantity) with
  | Some n =>
      let t := mkTransaction productId IN (int_value quantity) (stockCount p)
                 n reason reference notes actor in
      ∃ st',
        run (add_stock actor productId quantity reason reference notes) st =
          (Success 200 "Stock added successfully"
             (t, js_plus (stockCount p) quantity), st') ∧
        products st' !! productId =
          Some {| name := name p; price := price p; stockCount := n;
                  inStock := n >? 0 |} ∧
        (∀ id, id ≠ productId → products st' !! id = products st !! id) ∧
        transactions st' = transactions st ++ [t] ∧
        users st' = users st ∧ bills st' = bills st
  | None =>
      run (add_stock actor productId quantity reason reference notes) st =
        (Failure 500 "Server error", st)
  end ∧
  (∀ k, quantity = int_number k →
        castNumber (js_plus (stockCount p) quantity) = Some (stockCount p + k)) ∧
  (∀ sign zeros magnitude,
     quantity = int_string sign zeros magnitude →
     castNumber (js_plus (stockCount p) quantity) =
       Number_of_string (pretty (stockCount p) +:+ int_text quantity)).
Proof.
  intros Hp Hq. split_and!.
  - rewrite add_stock_run, Hp.
    replace (1 <=? int_value quantity) with true
      by (symmetry; apply Z.leb_le; lia).
    destruct (castNumber (js_plus (stockCount p) quantity)) as [n|]; [|done].
    eexists. split; [reflexivity|]. simpl. split.
    + rewrite lookup_insert_eq. reflexivity.
    + split; [|done]. intros id Hne. by rewrite lookup_insert_ne.
  - by intros k ->.
  - by intros sign zeros magnitude ->.
Qed.

(** POST /adjust-stock on a stored product with a target from 0 answers
    with success: the product is saved with the target as its stock count,
    whatever the count was; exactly one ADJUSTMENT record is appended, whose
    quantity is the distance between the old count and the target (0 when
    the target is the old count); nothing else in the store changes. *)
Theorem adjust_stock_sets
    actor productId newQuantity reason reference notes st p :
  products st !! productId = Some p →
  0 ≤ newQuantity →
  let t := mkTransaction productId ADJUSTMENT
             (Z.abs (newQuantity - stockCount p)) (stockCount p) newQuantity
             reason reference notes actor in
  ∃ st',
    run (adjust_stock actor productId newQuantity reason reference notes) st =
      (Success 200 "Stock adjusted successfully" (t, newQuantity), st') ∧
    products st' !! productId =
      Some {| name := name p; price := price p; stockCount := newQuantity;
              inStock := newQuantity >? 0 |} ∧
    (∀ id, id ≠ productId → products st' !! id = products st !! id) ∧
    transactions st' = transactions st ++ [t] ∧
    (newQuantity = stockCount p → txQuantity t = 0) ∧
    users st' = users st ∧ bills st' = bills st.
Proof.
  intros Hp Hq t. rewrite adjust_stock_run, Hp.
  replace (0 <=? newQuantity) with true by (symmetry; apply Z.leb_le; lia).
  eexists. split; [reflexivity|]. simpl. split_and!; try done.
  - rewrite lookup_insert_eq. reflexivity.
  - intros id Hne. by rewrite lookup_insert_ne.
  - intros ->. by rewrite Z.sub_diag.
Qed.

(** A request to a stock route that carries a quantity below 1 (a target
    below 0 for the adjustment) is answered with the validator's errors, and
    one that passes the validator but names a product that is not stored is
    answered with 404; in both cases the store is left as it was.  The
    validator is consulted before the product is looked up. *)
Theorem stock_request_rejected actor productId q n reason reference notes st :
  (int_value q < 1 →
   run (add_stock actor productId q reason reference notes) st
     = (ValidationErrors, st)) ∧
  (n < 1 →
   run (remove_stock actor productId n reason reference notes) st
     = (ValidationErrors, st)) ∧
  (n < 0 →
   run (adjust_stock actor productId n reason reference notes) st
     = (ValidationErrors, st)) ∧
  (products st !! productId = None →
   (1 ≤ int_value q →
    run (add_stock actor productId q reason reference notes) st
      = (Failure 404 "Product not found", st)) ∧
   (1 ≤ n →
    run (remove_stock actor productId n reason reference notes) st
      = (Failure 404 "Product not found", st)) ∧
   (0 ≤ n →
    run (adjust_stock actor productId n reason reference notes) st
      = (Failure 404 "Product not found", st))).
Proof.
  rewrite add_stock_run, remove_stock_run, adjust_stock_run.
  split_and!.
  - intros Hn. by replace (1 <=? int_value q) with false
      by (symmetry; apply Z.leb_gt; lia).
  - intros Hn. by replace (1 <=? n) with false by (symmetry; apply Z.leb_gt; lia).
  - intros Hn. by replace (0 <=? n) with false by (symmetry; apply Z.leb_gt; lia).
  - intros ->. split_and!.
    + intros Hn. by replace (1 <=? int_value q) with true
        by (symmetry; apply Z.leb_le; lia).
    + intros Hn.
      by replace (1 <=? n) with true by (symmetry; apply Z.leb_le; lia).
    + intros Hn.
      by replace (0 <=? n) with true by (symmetry; apply Z.leb_le; lia).
Qed.

Lemma serve_add_stock actor productId quantity reason reference notes st p :
  products st !! productId = Some p →
  1 ≤ quantity →
  products (serve (AddStock actor productId (int_number quantity) reason
                     reference notes) st)
    !! productId =
  Some (Product_pre_save (set_stockCount p (stockCount p + quantity))).
Proof.
  intros Hp Hq. unfold serve. rewrite add_stock_run, Hp. simpl.
  replace (1 <=? quantity) with true by (symmetry; apply Z.leb_le; lia).
  simpl. by rewrite lookup_insert_eq.
Qed.

Lemma serve_remove_stock actor productId quantity reason reference notes st p :
  products st !! productId = Some p →
  1 ≤ quantity →
  products (serve (RemoveStock actor productId quantity reason reference notes)
              st) !! productId =
  Some (Product_pre_save
          (set_stockCount p (Z.max 0 (stockCount p - quantity)))).
Proof.
  intros Hp Hq. unfold serve. rewrite remove_stock_run, Hp.
  replace (1 <=? quantity) with true by (symmetry; apply Z.leb_le; lia).
  simpl. by rewrite lookup_insert_eq.
Qed.

Lemma serve_adjust_stock actor productId newQuantity reason reference notes st p :
  products st !! productId = Some p →
  0 ≤ newQuantity →
  products (serve (AdjustStock actor productId newQuantity reason reference
                     notes) st) !! productId =
  Some (Product_pre_save (set_stockCount p newQuantity)).
Proof.
  intros Hp Hq. unfold serve. rewrite adjust_stock_run, Hp.
  replace (0 <=? newQuantity) with true by (symmetry; apply Z.leb_le; lia).
  simpl. by rewrite lookup_insert_eq.
Qed.

(** ** Stock requests one after the other *)

(** With a quantity that arrives as a JSON number, adding it and then
    removing the same quantity brings a non-negative stock count back to
    what it was.  The other way round it does not in general: removing
    first stops at zero, so the count ends at the larger of the old count
    and the quantity, and is restored exactly when the stock covered the
    removal. *)
Theorem add_remove_round_trip
    actor productId quantity reason reference notes st p :
  products st !! productId = Some p →
  0 ≤ stockCount p →
  1 ≤ quantity →
  stockCount <$>
    products
      (serve_all [AddStock actor productId (int_number quantity) reason
                    reference notes;
                  RemoveStock actor productId quantity reason reference notes]
         st) !! productId = Some (stockCount p) ∧
  stockCount <$>
    products
      (serve_all [RemoveStock actor productId quantity reason reference notes;
                  AddStock actor productId (int_number quantity) reason
                    reference notes]
         st) !! productId = Some (Z.max (stockCount p) quantity).
Proof.
  intros Hp Hs Hq. unfold serve_all. cbn [foldl]. split.
  - erewrite serve_remove_stock; [|by apply serve_add_stock|done].
    simpl. f_equal. lia.
  - erewrite serve_add_stock; [|by apply serve_remove_stock|done].
    simpl. f_equal. lia.
Qed.

(** An adjustment is absolute: whatever requests were served before it, an
    adjustment of a stored product to a target from 0 leaves the product
    with exactly that stock count, and with the in-stock flag of that
    count. *)
Theorem adjust_overrides_history
    reqs actor productId newQuantity reason reference notes st p :
  products st !! productId = Some p →
  0 ≤ newQuantity →
  ∃ p',
    products
      (serve_all
         (reqs ++ [AdjustStock actor productId newQuantity reason reference
                     notes]) st) !! productId = Some p' ∧
    stockCount p' = newQuantity ∧
    inStock p' = (newQuantity >? 0) ∧
    name p' = name p ∧ price p' = price p.
Proof.
  intros Hp Hn. unfold serve_all. rewrite foldl_app. cbn [foldl].
  fold (serve_all reqs st).
  pose proof (serve_all_products reqs st productId) as Hstep.
  rewrite Hp in Hstep.
  destruct (products (serve_all reqs st) !! productId) as [p1|] eqn:Hp1; [|done].
  destruct Hstep as (Hname & Hprice & _ & _).
  erewrite serve_adjust_stock by done.
  eexists. split; [reflexivity|]. simpl. by rewrite Hname, Hprice.
Qed.

(** ** What the five routes leave alone *)

Lemma serve_users (req : Request M) st : users (serve req st) = users st.
Proof.
  destruct req as [actor productId quantity reason reference notes
                  |actor productId quantity reason reference notes
                  |actor productId newQuantity reason reference notes
                  |actor now adminId items dueDate tax discount notes
                  |now bid s]; unfold serve.
  - rewrite add_stock_run. destruct (1 <=? int_value quantity); [|done].
    destruct (products st !! productId) as [p|]; [|done].
    by destruct (castNumber (js_plus (stockCount p) quantity)).
  - rewrite remove_stock_run. destruct (1 <=? quantity); [|done].
    by destruct (products st !! productId).
  - rewrite adjust_stock_run. destruct (0 <=? newQuantity); [|done].
    by destruct (products st !! productId).
  - fold (serve (GenerateBill actor now adminId items dueDate tax discount
                   notes) st).
    destruct (serve_generate actor now adminId items dueDate tax discount
                notes st) as (adminUser & through & rest & _ & _ & ->).
    apply allocate_all_users.
  - rewrite update_status_run. destruct (status_isIn s) as [s'|]; [|done].
    destruct bid as [|key]; [done|].
    destruct (bills st !! key) as [b|]; [|done].
    by destruct (falsy (billNumber b)).
Qed.

(** No request to the five routes adds or removes a product or a user, and
    none changes the name or the price of a product: after any sequence of
    requests the store has the same users and the same product ids, each
    product under its old name and price. *)
Theorem catalogue_and_users_kept reqs st :
  users (serve_all reqs st) = users st ∧
  ∀ id,
    name <$> products (serve_all reqs st) !! id = name <$> products st !! id ∧
    price <$> products (serve_all reqs st) !! id = price <$> products st !! id.
Proof.
  split.
  - revert st. induction reqs as [|req reqs IH]; intros st; [done|].
    simpl. fold (serve_all reqs (serve req st)). rewrite IH.
    apply serve_users.
  - intros id. pose proof (serve_all_products reqs st id) as Hstep.
    destruct (products st !! id) as [p|],
             (products (serve_all reqs st) !! id) as [p'|]; try done.
    destruct Hstep as (Hn & Hp & _). simpl. by rewrite Hn, Hp.
Qed.

(** ** Bills once they are stored *)

Lemma status_isIn_Some s x : status_isIn s = Some x → s = status_name x.
Proof.
  unfold status_isIn.
  destruct (String.eqb_spec s "PENDING") as [->|?]; [by intros [= <-]|].
  destruct (String.eqb_spec s "PAID") as [->|?]; [by intros [= <-]|].
  destruct (String.eqb_spec s "OVERDUE") as [->|?]; [by intros [= <-]|].
  destruct (String.eqb_spec s "CANCELLED") as [->|?]; [by intros [= <-]|].
  done.
Qed.

(** What a request does to the bill collection: nothing, or, for a status
    update that is accepted, the status of one numbered bill is set. *)
Lemma serve_bills (req : Request M) st :
  bills (serve req st) = bills st ∨
  (∃ now key s b,
     req = UpdateStatus now (castable key) (status_name s) ∧
     bills st !! key = Some b ∧
     falsy (billNumber b) = false ∧
     bills (serve req st) = <[key := set_status b s]> (bills st)).
Proof.
  destruct req as [actor productId quantity reason reference notes
                  |actor productId quantity reason reference notes
                  |actor productId newQuantity reason reference notes
                  |actor now adminId items dueDate tax discount notes
                  |now bid s];
    try (left; by apply serve_bills_stock).
  unfold serve. rewrite update_status_run.
  destruct (status_isIn s) as [s'|] eqn:Hs; [|by left].
  destruct bid as [|key]; [by left|].
  destruct (bills st !! key) as [b|] eqn:Hb; [|by left].
  destruct (falsy (billNumber b)) eqn:Hnum; [by left|].
  right. exists now, key, s', b. split; [|done].
  f_equal. by apply status_isIn_Some.
Qed.

Lemma serve_bill_kept (req : Request M) st i b :
  bills st !! i = Some b →
  ∃ b',
    bills (serve req st) !! i = Some b' ∧
    same_content b b' ∧
    (falsy (billNumber b) = false → billNumber b' = billNumber b).
Proof.
  intros Hb.
  destruct (serve_bills req st)
    as [-> | (now & id & s & b0 & _ & Hb0 & _ & ->)].
  - exists b. by repeat split.
  - destruct (decide (id = i)) as [->|Hne].
    + rewrite list_lookup_insert_eq by (by eapply lookup_lt_Some).
      rewrite Hb in Hb0. injection Hb0 as <-.
      eexists. split; [reflexivity|]. by repeat split.
    + rewrite list_lookup_insert_ne by done. exists b. by repeat split.
Qed.

(** A stored bill keeps its place and its content: after any sequence of
    requests to the five routes the bill at a position is still at that
    position with the same admin, lines, subtotal, tax, discount, total, due
    date, notes and author, and with the same bill number if it had one;
    only its status may differ.  In particular no request removes a bill. *)
Theorem stored_bill_content_kept reqs :
  ∀ st i b,
    bills st !! i = Some b →
    ∃ b',
      bills (serve_all reqs st) !! i = Some b' ∧
      same_content b b' ∧
      (falsy (billNumber b) = false → billNumber b' = billNumber b).
Proof.
  induction reqs as [|req reqs IH]; intros st i b Hb.
  - exists b. by repeat split.
  - destruct (serve_bill_kept req st i b Hb) as (b1 & Hb1 & Hc1 & Hn1).
    destruct (IH _ i b1 Hb1) as (b2 & Hb2 & Hc2 & Hn2).
    exists b2. split; [exact Hb2|]. split.
    + unfold same_content in *. destruct_and!. split_and!; congruence.
    + intros Hf. rewrite Hn2, Hn1; [done..|]. rewrite Hn1; done.
Qed.

(** ** The stock that POST /generate takes *)

Lemma allocate_stockCount actor adminUser item st id :
  line_failure st item = None →
  stockCount <$> products (allocate actor adminUser item st) !! id =
  (λ n, n - (if bool_decide (item_product item = id)
             then int_value (item_quantity item) else 0))
    <$> (stockCount <$> products st !! id).
Proof.
  intros (p & Hp & _)%line_failure_None.
  rewrite (allocate_debit _ _ _ _ _ Hp). simpl.
  case_bool_decide as Hid.
  - subst id. rewrite lookup_insert_eq, Hp. done.
  - rewrite lookup_insert_ne by done.
    destruct (products st !! id); simpl; [|done]. f_equal. lia.
Qed.

Lemma allocate_all_stockCount actor adminUser items :
  ∀ st id,
    lines_checked actor adminUser items st →
    stockCount <$> products (allocate_all actor adminUser items st) !! id =
    (λ n, n - requested id items) <$> (stockCount <$> products st !! id).
Proof.
  induction items as [|item items IH]; intros st id Hav; simpl.
  - destruct (products st !! id); simpl; [|done]. f_equal. lia.
  - destruct Hav as [Hok Hav].
    rewrite (IH _ id Hav), (allocate_stockCount _ _ _ _ _ Hok).
    destruct (products st !! id); simpl; [|done]. f_equal.
    case_bool_decide; lia.
Qed.

Lemma allocate_all_records actor adminUser items :
  ∀ st,
    lines_available actor adminUser items st →
    ∃ new,
      transactions (allocate_all actor adminUser items st) =
        transactions st ++ new ∧
      record_key <$> new = line_key <$> items ∧
      Forall (λ t, txType t = OUT ∧ performedBy t = actor) new.
Proof.
  induction items as [|item items IH]; intros st Hav; simpl.
  - exists []. by rewrite app_nil_r.
  - destruct Hav as (Hok & (p & Hp & [previous Hprev]) & Hav).
    destruct (IH _ Hav) as (new & Hnew & Hlines & Hall).
    exists (allocation_record actor adminUser p item previous :: new).
    assert (transactions (allocate actor adminUser item st) =
            transactions st ++
            [allocation_record actor adminUser p item previous])
      as Hone by (unfold allocate; by rewrite Hp, Hprev).
    rewrite Hnew, Hone, <- app_assoc. split; [done|]. split.
    + by rewrite fmap_cons, Hlines.
    + by constructor.
Qed.

Lemma allocate_all_served_nonneg actor adminUser items :
  ∀ st line,
    lines_checked actor adminUser items st →
    line ∈ items →
    ∃ p', products (allocate_all actor adminUser items st)
            !! item_product line = Some p' ∧ 0 ≤ stockCount p'.
Proof.
  induction items as [|item items IH]; intros st line Hav Hin.
  - by apply elem_of_nil in Hin.
  - destruct Hav as [Hok Hav]. simpl.
    apply elem_of_cons in Hin as [-> | Hin]; [|by apply IH].
    pose proof (allocate_all_products actor adminUser items
                  (allocate actor adminUser item st) (item_product item) Hav)
      as Hstep.
    apply line_failure_None in Hok as (p & Hp & Hle).
    rewrite (allocate_debit _ _ _ _ _ Hp) in Hstep at 1. simpl in Hstep.
    rewrite lookup_insert_eq in Hstep.
    destruct (products (allocate_all actor adminUser items
                          (allocate actor adminUser item st))
                !! item_product item) as [p'|]; [|done].
    simpl in Hstep. destruct Hstep as (_ & _ & Hs & _).
    exists p'. split; [done|]. apply Hs. lia.
Qed.

Lemma process_items_available actor adminUser items acc sub st :
  lines_available actor adminUser items st →
  ∃ lines sub',
    process_items actor adminUser items acc sub st =
      (inr (lines, sub'), allocate_all actor adminUser items st).
Proof.
  intros Hav.
  destruct (process_items_app actor adminUser items [] acc sub st Hav)
    as (acc' & sub' & Hrun).
  rewrite app_nil_r in Hrun. rewrite Hrun. by exists acc', sub'.
Qed.

(** A request that is served in full is debited in full, and then fails.
    When the request passes the validator, names an admin, and every line
    finds its product with enough stock left by the lines before it and
    gets its record, every stored product has lost exactly the quantity that
    the lines ask of it, added up over the lines (nothing for a product
    that no line names), and the log has grown by one OUT record per line,
    in the order of the lines, each with the product and the quantity of its
    line and the requester as author; the route then answers 500, and no
    bill is stored for the stock that was taken. *)
Theorem generate_debits_what_it_serves
    actor now adminId reqItems dueDate tax discount notes st adminUser :
  generate_valid reqItems tax discount = true →
  users st !! adminId = Some adminUser →
  role adminUser = role_admin →
  lines_available actor adminUser reqItems st →
  ∃ st',
    run (generate actor now adminId reqItems dueDate tax discount notes) st
      = (Failure 500 "Server error", st') ∧
    (∀ id,
       stockCount <$> products st' !! id =
       (λ n, n - requested id reqItems)
         <$> (stockCount <$> products st !! id)) ∧
    (∃ new,
       transactions st' = transactions st ++ new ∧
       record_key <$> new = line_key <$> reqItems ∧
       Forall (λ t, txType t = OUT ∧ performedBy t = actor) new) ∧
    bills st' = bills st.
Proof.
  intros Hvalid Hadm Hrole Hav. rewrite generate_run, Hvalid, Hadm.
  rewrite (bool_decide_eq_true_2 _ Hrole).
  destruct (process_items_available actor adminUser reqItems [] zero st Hav)
    as (lines & sub & ->).
  eexists. split; [reflexivity|]. split_and!.
  - intros id. apply allocate_all_stockCount.
    by apply lines_available_checked.
  - by apply allocate_all_records.
  - apply allocate_all_bills.
Qed.

(** POST /generate never takes more than there is, also when a product is
    named on several lines.  Whatever it answers, the store it leaves is the
    store after the lines that the loop went through, a first part of the
    request: every stored product has lost what those lines ask of it, and
    for a product that one of them names this is at most the stock count
    that the product had when the request arrived. *)
Theorem generate_never_oversells
    actor now adminId reqItems dueDate tax discount notes st :
  ∃ through rest,
    reqItems = through ++ rest ∧
    (∀ id,
       stockCount <$>
         products (serve (GenerateBill actor now adminId reqItems dueDate tax
                            discount notes) st) !! id =
       (λ n, n - requested id through)
         <$> (stockCount <$> products st !! id)) ∧
    (∀ line p,
       line ∈ through →
       products st !! item_product line = Some p →
       requested (item_product line) through ≤ stockCount p).
Proof.
  destruct (serve_generate actor now adminId reqItems dueDate tax discount
              notes st) as (adminUser & through & rest & -> & Hav & ->).
  exists through, rest. split; [done|]. split.
  - intros id. by apply allocate_all_stockCount.
  - intros line p Hin Hp.
    destruct (allocate_all_served_nonneg actor adminUser through st line Hav
                Hin) as (p' & Hp' & Hs').
    pose proof (allocate_all_stockCount actor adminUser through st
                  (item_product line) Hav) as Hstock.
    rewrite Hp', Hp in Hstock. simpl in Hstock. injection Hstock as Hstock.
    lia.
Qed.

(** POST /generate never answers with a bill and never stores one.  It
    answers 500 exactly when the request passes the validator, the target
    is a stored user with the role admin, and the loop either serves every
    line or comes to a line that passes its check and whose record does not
    cast; in every other case the answer is the validator's errors, "Admin
    not found", or the failure of a line. *)
Theorem generate_answers
    actor now adminId reqItems dueDate tax discount notes st :
  (∀ code msg b,
     (run (generate actor now adminId reqItems dueDate tax discount notes)
        st).1 ≠ Success code msg b) ∧
  bills (run (generate actor now adminId reqItems dueDate tax discount notes)
           st).2 = bills st ∧
  ((run (generate actor now adminId reqItems dueDate tax discount notes) st).1
     = Failure 500 "Server error" ↔
   generate_valid reqItems tax discount = true ∧
   ∃ adminUser,
     users st !! adminId = Some adminUser ∧ role adminUser = role_admin ∧
     (lines_available actor adminUser reqItems st ∨
      ∃ served bad rest,
        reqItems = served ++ bad :: rest ∧
        lines_available actor adminUser served st ∧
        line_failure (allocate_all actor adminUser served st) bad = None ∧
        ¬ record_written (allocate_all actor adminUser served st) bad)).
Proof.
  destruct (run (generate actor now adminId reqItems dueDate tax discount
                   notes) st) as [r st'] eqn:Hrun.
  destruct (generate_no_bill _ _ _ _ _ _ _ _ _ _ _ Hrun)
    as [(c & m & Hr) Hbills].
  split; [by destruct Hr as [-> | ->]|]. split; [done|].
  clear Hr Hbills c m. rewrite generate_run in Hrun. simpl. split.
  - intros ->.
    destruct (generate_valid reqItems tax discount); [|done].
    destruct (users st !! adminId) as [adminUser|]; [|done].
    case_bool_decide as Hrole; [|done].
    split; [done|]. exists adminUser. split; [done|]. split; [done|].
    destruct (process_items actor adminUser reqItems [] zero st)
      as [[r|[lines sub]] st1] eqn:Hloop.
    + injection Hrun as -> _.
      apply process_items_result in Hloop
        as (served & rest & -> & Hav & bad & rest' & -> &
            [[Hbad _]|(Hbad & Hrec & _ & _)]).
      * apply line_failure_Some in Hbad as (code & msg & [= <- _] & [?|?]);
          done.
      * right. by exists served, bad, rest'.
    + apply process_items_result in Hloop
        as (served & rest & -> & Hav & -> & _).
      left. by rewrite app_nil_r.
  - intros (Hvalid & adminUser & Hadm & Hrole & Hcase).
    rewrite Hvalid, Hadm, (bool_decide_eq_true_2 _ Hrole) in Hrun.
    destruct Hcase as [Hav | (served & bad & rest & -> & Hav & Hbad & Hrec)].
    + destruct (process_items_available actor adminUser reqItems [] zero st
                  Hav) as (lines & sub & Hloop).
      rewrite Hloop in Hrun. by injection Hrun as <- _.
    + destruct (process_items_app actor adminUser served (bad :: rest) []
                  zero st Hav) as (acc' & sub' & Hloop).
      rewrite Hloop, process_items_cons in Hrun.
      apply line_failure_None in Hbad as (p & Hp & Hle).
      rewrite Hp in Hrun.
      replace (stockCount p <? int_value (item_quantity bad)) with false
        in Hrun by (symmetry; apply Z.ltb_ge; lia).
      destruct (record_previous p bad) as [previous|] eqn:Hprev.
      * destruct Hrec. exists p. by rewrite Hprev.
      * by injection Hrun as <- _.
Qed.

(** POST /generate turns a request down before it reads any product when
    the validator objects (no line, a quantity below 1, a negative tax or
    discount) or when the target is not a stored user with the role admin
    (a superadmin or a plain user is "not found" as well); the store is left
    as it was.  The validator is consulted before the target is looked up. *)
Theorem generate_rejected_up_front
    actor now adminId reqItems dueDate tax discount notes st :
  (generate_valid reqItems tax discount = false →
   run (generate actor now adminId reqItems dueDate tax discount notes) st
     = (ValidationErrors, st)) ∧
  (generate_valid reqItems tax discount = true →
   (∀ adminUser, users st !! adminId = Some adminUser →
                 role adminUser ≠ role_admin) →
   run (generate actor now adminId reqItems dueDate tax discount notes) st
     = (Failure 404 "Admin not found", st)) ∧
  (reqItems = [] ∨
   (∃ line, line ∈ reqItems ∧ int_value (item_quantity line) < 1) →
   generate_valid reqItems tax discount = false).
Proof.
  rewrite generate_run. split_and!.
  - by intros ->.
  - intros -> Hadm. destruct (users st !! adminId) as [adminUser|]; [|done].
    case_bool_decide as Hrole; [|done]. by destruct (Hadm adminUser).
  - unfold generate_valid. intros [-> | (line & Hin & Hq)]; [done|].
    destruct (forallb _ reqItems) eqn:Hall.
    + rewrite forallb_forall in Hall.
      apply list_elem_of_In, Hall, Z.leb_le in Hin. lia.
    + by rewrite andb_false_r.
Qed.

(** ** The status route turned down *)

(** PATCH /:id/status accepts exactly the four upper-case status names of
    the schema (the comparison is by string equality, so "paid" or "Paid"
    is not accepted).  A request with any other status is answered with the
    validator's errors.  With an accepted status, an id that does not cast
    is answered with 500, one that names no stored bill with 404, and one
    that names a stored bill without a number with 500.  In all these cases
    the store is left as it was. *)
Theorem update_status_rejected now id s st :
  (∀ x, status_isIn s = Some x ↔ s = status_name x) ∧
  (status_isIn s = None →
   run (update_status now id s) st = (ValidationErrors, st)) ∧
  (is_Some (status_isIn s) → id = uncastable →
   run (update_status now id s) st = (Failure 500 "Server error", st)) ∧
  (is_Some (status_isIn s) →
   ∀ key, id = castable key → bills st !! key = None →
          run (update_status now id s) st
            = (Failure 404 "Bill not found", st)) ∧
  (is_Some (status_isIn s) →
   ∀ key b, id = castable key → bills st !! key = Some b →
            falsy (billNumber b) = true →
            run (update_status now id s) st
              = (Failure 500 "Server error", st)).
Proof.
  rewrite update_status_run. split_and!.
  - intros x. split; [apply status_isIn_Some|]. intros ->. by destruct x.
  - by intros ->.
  - by intros [x ->] ->.
  - by intros [x ->] key -> ->.
  - by intros [x ->] key b -> -> ->.
Qed.

(** ** Bill numbers *)

Lemma pretty_N_go_no_dash (x : N) :
  ∀ s, no_dash s → no_dash (pretty_N_go x s).
Proof.
  induction (N.lt_wf_0 x) as [x _ IH]; intros s Hs.
  assert (x = 0 ∨ 0 < x)%N as [->|Hx] by lia.
  - by rewrite pretty_N_go_0.
  - rewrite pretty_N_go_step by done. apply IH.
    + by apply N.div_lt.
    + split; [|done]. unfold pretty_N_char. by repeat case_match.
Qed.

Lemma pretty_N_no_dash (x : N) : no_dash (pretty x).
Proof.
  unfold pretty, pretty_N. case_decide; [by split|].
  by apply pretty_N_go_no_dash.
Qed.

Lemma app_dash_inj (a a' b b' : string) :
  no_dash a → no_dash a' →
  a +:+ "-" +:+ b = a' +:+ "-" +:+ b' → a = a' ∧ b = b'.
Proof.
  revert a'. induction a as [|c a IH]; intros [|c' a'] Ha Ha' Heq;
    simplify_eq/=.
  - done.
  - by destruct Ha' as [[] _].
  - by destruct Ha as [[] _].
  - destruct Ha as [_ Ha], Ha' as [_ Ha'].
    destruct (IH a' Ha Ha') as [-> ->]; done.
Qed.

(** The bill number tells the timestamp and the sequence number apart: two
    bill numbers built by the save hook are the same string only when both
    the timestamps and the counts are the same. *)
Theorem bill_number_inj now count now' count' :
  bill_number now count = bill_number now' count' →
  now = now' ∧ count = count'.
Proof.
  unfold bill_number. intros Heq. simpl in Heq. injection Heq as Heq.
  apply app_dash_inj in Heq as [Hnow Hcount]; [|apply pretty_N_no_dash..].
  apply (inj pretty) in Hnow, Hcount. split; [done | lia].
Qed.




(** ** Reading a bill *)

(** GET /:id of the billing router hands a bill out only to a superadmin or
    to the admin the bill is made out to: an answer that carries a bill
    carries the stored bill of that id, and the requester is a superadmin
    or is the bill's admin.  A superadmin gets every stored bill; the
    bill's admin gets it when the admin's user document is stored; an id
    that names no stored bill is answered with 404, and one that does not
    cast with 500. *)
Theorem get_bill_access userId userRole id st :
  (∀ b, get_bill userId userRole id st = Json b →
        ∃ key, id = castable key ∧ bills st !! key = Some b ∧
               (userRole = role_superadmin ∨ adminId b = userId)) ∧
  (∀ key b, id = castable key → bills st !! key = Some b →
            userRole = role_superadmin ∨
            (adminId b = userId ∧ is_Some (users st !! userId)) →
            get_bill userId userRole id st = Json b) ∧
  (∀ key, id = castable key → bills st !! key = None →
          get_bill userId userRole id st = Refused 404 "Bill not found") ∧
  (id = uncastable →
   get_bill userId userRole id st = Refused 500 "Server error").
Proof.
  unfold get_bill. split_and!.
  - intros b. destruct id as [|key]; [done|].
    destruct (bills st !! key) as [bill|] eqn:Hb; [|done].
    case_bool_decide as Hrole.
    + destruct (users st !! adminId bill); [|done].
      case_bool_decide as Hown; [done|]. intros [= ->].
      exists key. split; [done|]. split; [done|]. right.
      destruct (decide (adminId b = userId)) as [|Hne]; [done | by destruct Hown].
    + intros [= ->]. exists key. split; [done|]. split; [done|]. left.
      destruct (decide (userRole = role_superadmin)) as [|Hne];
        [done | by destruct Hrole].
  - intros key b -> -> [-> | [<- [u Hu]]].
    + by rewrite bool_decide_eq_false_2 by (by intros []).
    + case_bool_decide; [|done]. rewrite Hu.
      by rewrite bool_decide_eq_false_2 by (by intros []).
  - by intros key -> ->.
  - by intros ->.
Qed.

(** ** The billing summary *)

Lemma status_count_split (matched : list (Bill M)) :
  length matched =
  (length (filter (λ bill, status bill = PENDING) matched)
   + length (filter (λ bill, status bill = PAID) matched)
   + length (filter (λ bill, status bill = OVERDUE) matched)
   + length (filter (λ bill, status bill = CANCELLED) matched))%nat.
Proof.
  induction matched as [|bill matched IH]; [done|].
  rewrite !filter_cons. simpl. rewrite IH.
  destruct (status bill); repeat case_decide; try done; simpl; lia.
Qed.

(** The status counts of GET /summary/stats add up to its [totalBills]:
    every matched bill is counted under exactly one status.  A status is
    listed exactly when some matched bill has it, with the number of such
    bills as its count. *)
Theorem status_counts_add_up startDate endDate (collection : list (N * Bill M)) :
  let '(summary, counts) := summary_stats startDate endDate collection in
  let matched :=
    snd <$> filter (λ doc, in_range startDate endDate doc.1 = true)
              collection in
  totalBills summary = length matched ∧
  sum_list (snd <$> counts) = totalBills summary ∧
  ∀ s n,
    (s, n) ∈ counts ↔
    n = length (filter (λ bill, status bill = s) matched) ∧ n ≠ 0%nat.
Proof.
  unfold summary_stats.
  set (matched := snd <$> filter _ collection).
  assert (Htotal : totalBills (summary_group matched) = length matched)
    by (by destruct matched).
  split; [exact Htotal|]. split.
  - rewrite Htotal, (status_count_split matched). unfold status_counts.
    simpl. rewrite !filter_cons, filter_nil. simpl.
    repeat case_decide; simpl; lia.
  - intros s n. unfold status_counts. rewrite list_elem_of_filter. simpl.
    rewrite !elem_of_cons, elem_of_nil. split.
    + intros [Hn [Hs | [Hs | [Hs | [Hs | []]]]]]; injection Hs as -> ->; done.
    + intros [-> Hn]. split; [done|]. destruct s; auto.
Qed.

End MoreProperties.


(** * Accounts: who gets through *)

Module AccountsFacts.

Import Accounts.

Section Facts.

Variable jwt_verify_id : string → option string.

Implicit Types (accounts : gmap string Account) (u : Account).

Lemma prefix_app (p s : string) :
  String.prefix p s = true → ∃ r, s = p +:+ r.
Proof.
  revert s. induction p as [|a p IH]; intros s; simpl.
  - intros _. by exists s.
  - destruct s as [|b s]; simpl; [done|].
    destruct (Ascii.ascii_dec a b) as [->|]; [|done].
    intros Hp. destruct (IH s Hp) as (r & ->). by exists r.
Qed.

Lemma prefix_app_true (p r : string) : String.prefix p (p +:+ r) = true.
Proof.
  induction p as [|a p IH]; simpl; [by destruct r|].
  by destruct (Ascii.ascii_dec a a).
Qed.

Lemma drop_chars_app (p r : string) :
  drop_chars (String.length p) (p +:+ r) = r.
Proof. induction p as [|a p IH]; simpl; [by destruct r | done]. Qed.

(** Taking the pattern out of a string that starts with it leaves the
    rest. *)
Lemma replace_with_empty_app (p r : string) :
  replace_with_empty p (p +:+ r) = r.
Proof.
  destruct p as [|a p].
  - simpl. by destruct r.
  - assert (Hpre := prefix_app_true (String a p) r).
    change (String a p +:+ r) with (String a (p +:+ r)) in *.
    cbn [replace_with_empty]. rewrite Hpre. apply (drop_chars_app (String a p)).
Qed.

Lemma replace_Bearer_no_space (s : string) :
  no_space s → replace_with_empty "Bearer " s = s.
Proof.
  induction s as [|c s IH]; intros Hs; [done|].
  cbn [replace_with_empty].
  destruct (String.prefix "Bearer " (String c s)) eqn:Hpre.
  - apply prefix_app in Hpre as (r & Hr). rewrite Hr in Hs. simpl in Hs.
    by destruct Hs as (_ & _ & _ & _ & _ & _ & [[] _]).
  - f_equal. apply IH. by destruct Hs.
Qed.

(** ** The middleware [auth] *)

(** [auth] lets a request through only with the account of the token: when
    it calls [next()], the header (with a first "Bearer " taken out) is a
    non-empty token that verifies, the id in its payload is the id of a
    stored account that is active, and [req.user] is that account without
    its password. *)
Theorem auth_lets_active_token_owner_through authorization accounts id u :
  auth jwt_verify_id authorization accounts = Next (id, u) →
  ∃ token stored,
    replace_with_empty "Bearer " <$> authorization = Some token ∧
    token ≠ "" ∧
    jwt_verify_id token = Some id ∧
    accounts !! id = Some stored ∧
    isActive stored = true ∧
    u = select_minus_password stored ∧
    password u = None.
Proof.
  unfold auth. destruct authorization as [header|]; simpl; [|done].
  destruct (String.eqb_spec (replace_with_empty "Bearer " header) "")
    as [|Hne]; [done|].
  destruct (jwt_verify_id _) as [id'|] eqn:Hv; [|done].
  destruct (accounts !! id') as [stored|] eqn:Hs; [|done].
  destruct (isActive stored) eqn:Hact; simpl; [|done].
  intros [= -> <-]. exists (replace_with_empty "Bearer " header), stored.
  by split_and!.
Qed.

(** [auth] turns a request down with 401 without looking at the token
    check when there is no Authorization header, when the header is empty
    and when it is "Bearer " with nothing after it; and it turns down a
    token that verifies when the account of its payload is not stored or is
    not active. *)
Theorem auth_refuses accounts :
  auth jwt_verify_id None accounts
    = Stop 401 "No token, authorization denied" ∧
  auth jwt_verify_id (Some "") accounts
    = Stop 401 "No token, authorization denied" ∧
  auth jwt_verify_id (Some "Bearer ") accounts
    = Stop 401 "No token, authorization denied" ∧
  ∀ token id,
    token ≠ "" →
    jwt_verify_id token = Some id →
    (accounts !! id = None ∨
     ∃ stored, accounts !! id = Some stored ∧ isActive stored = false) →
    auth jwt_verify_id (Some ("Bearer " +:+ token)) accounts
      = Stop 401 "Token is not valid".
Proof.
  split_and!; try done.
  intros token id Hne Hv Hacc. unfold auth. cbn [fmap option_fmap option_map].
  rewrite (replace_with_empty_app "Bearer " token).
  destruct (String.eqb_spec token "") as [|_]; [done|]. rewrite Hv.
  destruct Hacc as [-> | (stored & -> & Hact)]; [done|].
  simpl. by rewrite Hact.
Qed.

(** The "Bearer " prefix is optional: a token without a space in it is
    treated the same whether the header carries it bare or after
    "Bearer ". *)
Theorem auth_bearer_prefix_optional token accounts :
  no_space token →
  auth jwt_verify_id (Some token) accounts =
  auth jwt_verify_id (Some ("Bearer " +:+ token)) accounts.
Proof.
  intros Hs. unfold auth. cbn [fmap option_fmap option_map].
  by rewrite (replace_with_empty_app "Bearer " token),
             (replace_Bearer_no_space token Hs).
Qed.

(** ** Permissions after a save *)

(** The save hook sets the permissions from the role alone, whatever they
    were, and touches nothing else; saving twice is the same as saving
    once.  For an account as the hook leaves it, [checkPermission] lets a
    superadmin through for every permission, an admin for every permission
    but canManageUsers, and a plain user for none (403). *)
Theorem permissions_follow_role id u permission :
  pre_save (pre_save u) = pre_save u ∧
  (∀ perms, pre_save (set_permissions u perms) = pre_save u) ∧
  set_permissions (pre_save u) (permissions u) = u ∧
  (checkPermission permission (Some (id, pre_save u)) =
     Next (id, pre_save u) ↔
   role u = role_superadmin ∨
   (role u = role_admin ∧ permission ≠ key_canManageUsers)) ∧
  (checkPermission permission (Some (id, pre_save u)) ≠
     Next (id, pre_save u) →
   checkPermission permission (Some (id, pre_save u)) =
     Stop 403 "Permission denied").
Proof.
  destruct u as [un em pw r fn ln ph act cb perms0].
  unfold pre_save, checkPermission. simpl.
  destruct r, permission; simpl; split_and!; try done;
    try (split; [done | intros [? | [? ?]]; done]);
    try (split; [intros _; by left | done]);
    try (split; [intros _; by right | done]).
Qed.

(** ** Deleting a user *)

Lemma delete_user_keeps id accounts id' u :
  accounts !! id' = Some u →
  role u = role_superadmin ∨ id ≠ castable id' →
  (delete_user id accounts).2 !! id' = Some u.
Proof.
  intros Hu Hcase. unfold delete_user. destruct id as [|key]; [done|].
  destruct (accounts !! key) as [t|] eqn:Ht; [|done].
  case_bool_decide as Hrole; [done|]. simpl.
  destruct (decide (id' = key)) as [->|Hne].
  - rewrite Ht in Hu. injection Hu as ->. by destruct Hcase.
  - by rewrite lookup_insert_ne.
Qed.

(** The handler of DELETE /:id never touches a superadmin account (the
    request is answered with 403) and never removes or changes any account
    but its target; an id that does not cast is answered with 500, a target
    that is not stored with 404, and nothing changes.  Any other target is
    answered with success, also when it was inactive already, and is stored
    inactive, with the permissions of its role and everything else as it
    was. *)
Theorem delete_user_soft id accounts :
  (∀ id' u, accounts !! id' = Some u →
            role u = role_superadmin ∨ id ≠ castable id' →
            (delete_user id accounts).2 !! id' = Some u) ∧
  (∀ id', accounts !! id' = None →
          (delete_user id accounts).2 !! id' = None) ∧
  (id = uncastable →
   delete_user id accounts = (Failure 500 "Server error", accounts)) ∧
  (∀ key, id = castable key → accounts !! key = None →
          delete_user id accounts = (Failure 404 "User not found", accounts)) ∧
  (∀ key u, id = castable key → accounts !! key = Some u →
            role u = role_superadmin →
            delete_user id accounts
              = (Failure 403 "Cannot delete superadmin", accounts)) ∧
  (∀ key u, id = castable key → accounts !! key = Some u →
            role u ≠ role_superadmin →
            ∃ u',
              delete_user id accounts =
                (Success 200 "User deleted successfully" tt,
                 <[key := u']> accounts) ∧
              isActive u' = false ∧
              u' = pre_save (set_isActive u false) ∧
              role u' = role u ∧ username u' = username u ∧
              email u' = email u ∧ password u' = password u ∧
              createdBy u' = createdBy u).
Proof.
  split_and!.
  - intros id' u. apply delete_user_keeps.
  - intros id' Hnone. unfold delete_user. destruct id as [|key]; [done|].
    destruct (accounts !! key) as [t|] eqn:Ht; [|done].
    case_bool_decide; [done|]. simpl. rewrite lookup_insert_ne; [done|].
    intros ->. congruence.
  - by intros ->.
  - unfold delete_user. by intros key -> ->.
  - unfold delete_user. intros key u -> -> Hrole.
    by rewrite bool_decide_eq_true_2.
  - unfold delete_user. intros key u -> -> Hrole.
    rewrite bool_decide_eq_false_2 by done.
    eexists. split; [reflexivity|].
    unfold pre_save. simpl. by repeat case_bool_decide.
Qed.

(** An account that has been deleted cannot authenticate any more: after a
    successful DELETE /:id no Authorization header makes [auth] let a
    request through as that account. *)
Theorem deleted_user_cannot_authenticate id accounts accounts' message
    authorization u :
  delete_user (castable id) accounts = (Success 200 message tt, accounts') →
  auth jwt_verify_id authorization accounts' ≠ Next (id, u).
Proof.
  unfold delete_user. destruct (accounts !! id) as [t|]; [|done].
  case_bool_decide; [done|]. intros [= _ <-] Hauth.
  apply auth_lets_active_token_owner_through in Hauth
    as (token & stored & _ & _ & _ & Hstored & Hact & _).
  rewrite lookup_insert_eq in Hstored. injection Hstored as <-.
  unfold pre_save in Hact. by repeat case_bool_decide.
Qed.

(** Only a superadmin deletes users, and no superadmin is ever deleted.
    Behind its middlewares DELETE /:id changes the accounts only when the
    header carries the token of an active superadmin; a request of anybody
    else is answered with 401 or 403 and changes nothing.  Every superadmin
    account, the requester's included, stays as it is. *)
Theorem delete_user_route_guarded authorization id accounts :
  ((delete_user_route jwt_verify_id authorization id accounts).2 ≠ accounts →
   ∃ me stored,
     auth jwt_verify_id authorization accounts = Next me ∧
     accounts !! me.1 = Some stored ∧
     role stored = role_superadmin ∧ isActive stored = true) ∧
  (∀ me, auth jwt_verify_id authorization accounts = Next me →
         role me.2 ≠ role_superadmin →
         delete_user_route jwt_verify_id authorization id accounts
           = (Failure 403 "Access denied", accounts)) ∧
  (∀ id' u, accounts !! id' = Some u → role u = role_superadmin →
            (delete_user_route jwt_verify_id authorization id accounts).2
              !! id' = Some u).
Proof.
  unfold delete_user_route, auth_then_authorize, authorize. split_and!.
  - destruct (auth jwt_verify_id authorization accounts) as [[mid me]|]
      eqn:Hauth; [|done].
    simpl. case_bool_decide as Hrole; simpl; [|done].
    intros _.
    apply auth_lets_active_token_owner_through in Hauth
      as (token & stored & _ & _ & _ & Hstored & Hact & -> & _).
    exists (mid, select_minus_password stored), stored.
    split_and!; try done. simpl in Hrole.
    by apply list_elem_of_singleton in Hrole.
  - intros me -> Hrole. simpl.
    rewrite bool_decide_eq_false_2; [done|].
    by intros ?%list_elem_of_singleton.
  - intros id' u Hu Hrole.
    destruct (auth jwt_verify_id authorization accounts) as [me|]; [|done].
    simpl. case_bool_decide; simpl; [|done].
    apply delete_user_keeps; [done | by left].
Qed.

(** ** The guard of the stock routes *)

(** Who reaches a route behind [auth] and
    [checkPermission('canManageInventory')]: when every stored account
    carries the permissions the save hook gives its role, a request gets
    through only as an active account with the role admin or superadmin,
    and an active plain user with a valid token is answered with 403. *)
Theorem inventory_guard authorization accounts :
  (∀ id u, accounts !! id = Some u → permissions u = permissions (pre_save u)) →
  (∀ id u,
     auth_then_checkPermission jwt_verify_id key_canManageInventory
       authorization accounts = Next (id, u) →
     (role u = role_superadmin ∨ role u = role_admin) ∧ isActive u = true ∧
     ∃ stored, accounts !! id = Some stored ∧
               u = select_minus_password stored) ∧
  (∀ id u,
     auth jwt_verify_id authorization accounts = Next (id, u) →
     role u = role_user →
     auth_then_checkPermission jwt_verify_id key_canManageInventory
       authorization accounts = Stop 403 "Permission denied").
Proof.
  intros Hhook. unfold auth_then_checkPermission. split.
  - intros id u.
    destruct (auth jwt_verify_id authorization accounts) as [[mid me]|]
      eqn:Hauth; [|done].
    apply auth_lets_active_token_owner_through in Hauth
      as (token & stored & _ & _ & _ & Hstored & Hact & -> & _).
    unfold checkPermission. simpl. rewrite (Hhook _ _ Hstored).
    unfold pre_save.
    destruct (role stored) eqn:Hrole; simpl; [| |done];
      intros [= <- <-]; simpl; rewrite Hrole; split_and!; eauto.
  - intros id u Hauth Hrole. rewrite Hauth.
    apply auth_lets_active_token_owner_through in Hauth
      as (token & stored & _ & _ & _ & Hstored & Hact & -> & _).
    unfold checkPermission. simpl. rewrite (Hhook _ _ Hstored).
    simpl in Hrole. unfold pre_save. by rewrite Hrole.
Qed.

End Facts.

End AccountsFacts.

(** * Integer amounts *)

Lemma foldl_plus_Z {A : Type} (f : A → Z) (l : list A) :
  ∀ a, foldl (λ acc x, plus acc (f x)) a l =
       a + foldr (λ x acc, f x + acc) 0 l.
Proof.
  induction l as [|x l IH]; intros a; simpl; [lia|].
  rewrite IH. symmetry. apply Z.add_assoc.
Qed.

(** For integer amounts the sums of GET /summary/stats fit together: the
    total amount is the paid, the pending and the overdue amount plus the
    total of the matched bills that are cancelled (which the summary does
    not list), so with totals that are not negative the three listed
    amounts never add up to more than the total amount, and add up to it
    exactly when no cancelled bill has a positive total. *)
Theorem summary_amounts_fit startDate endDate (collection : list (N * Bill Z)) :
  let matched :=
    snd <$> filter (λ doc, in_range startDate endDate doc.1 = true)
              collection in
  let summary := (summary_stats startDate endDate collection).1 in
  totalAmount summary =
    paidAmount summary + pendingAmount summary + overdueAmount summary
    + sum_total_if CANCELLED matched ∧
  (Forall (λ bill, 0 ≤ total bill) matched →
   0 ≤ sum_total_if CANCELLED matched ∧
   paidAmount summary + pendingAmount summary + overdueAmount summary
     ≤ totalAmount summary).
Proof.
  intros matched summary. subst summary. unfold summary_stats.
  fold matched. cbn [fst].
  assert (Hsplit :
    sum_total matched =
    sum_total_if PAID matched + sum_total_if PENDING matched
    + sum_total_if OVERDUE matched + sum_total_if CANCELLED matched).
  { unfold sum_total, sum_total_if.
    rewrite !(foldl_plus_Z _ matched). unfold zero, Z_Amount.
    clear. induction matched as [|bill l IH]; [done|]. simpl.
    destruct (status bill); simpl; lia. }
  assert (Hcancelled :
    Forall (λ bill : Bill Z, 0 ≤ total bill) matched →
    0 ≤ sum_total_if CANCELLED matched).
  { unfold sum_total_if. rewrite (foldl_plus_Z _ matched).
    unfold zero, Z_Amount. clear.
    induction 1 as [|bill l Hb _ IH]; simpl; [lia|].
    case_bool_decide; lia. }
  destruct matched as [|bill l] eqn:Hm.
  - simpl. split; [done|]. intros _. done.
  - rewrite <- Hm in *. cbn [summary_group].
    assert (summary_group matched =
            {| totalBills := length matched;
               totalAmount := sum_total matched;
               paidAmount := sum_total_if PAID matched;
               pendingAmount := sum_total_if PENDING matched;
               overdueAmount := sum_total_if OVERDUE matched |}) as ->
      by (by rewrite Hm).
    simpl. split; [lia|]. intros Hpos. specialize (Hcancelled Hpos). lia.
Qed.

(** * The further properties on the example stores *)

Lemma add_stock_adds_witness :
  products shop !! "p1" = Some aviator ∧
  1 ≤ 4 ∧
  ∃ st',
    run (add_stock "root" "p1" (int_string no_sign 0 4) "delivery" None None)
      shop =
      (Success 200 "Stock added successfully"
         (mkTransaction "p1" IN 4 5 54 "delivery" None None "root",
          js_string "54"), st') ∧
    products st' !! "p1" =
      Some {| name := "Aviator"; price := 10; stockCount := 54;
              inStock := true |} ∧
    (∀ id, id ≠ "p1" → products st' !! id = products shop !! id) ∧
    transactions st' =
      transactions shop ++
      [mkTransaction "p1" IN 4 5 54 "delivery" None None "root"] ∧
    users st' = users shop ∧ bills st' = bills shop.
Proof.
  assert (Hp : products shop !! "p1" = Some aviator) by (vm_compute; reflexivity).
  split; [exact Hp|]. split; [lia|].
  exact (proj1 (add_stock_adds (M := Z)
                  "root" "p1" (int_string no_sign 0 4) "delivery" None None
                  shop aviator Hp ltac:(simpl; lia))).
Defined.

Lemma adjust_stock_sets_witness :
  products shop !! "p1" = Some aviator ∧
  0 ≤ 5 ∧
  ∃ st',
    run (adjust_stock "root" "p1" 5 "stocktake" None None) shop =
      (Success 200 "Stock adjusted successfully"
         (mkTransaction "p1" ADJUSTMENT 0 5 5 "stocktake" None None "root", 5),
       st') ∧
    products st' !! "p1" =
      Some {| name := "Aviator"; price := 10; stockCount := 5;
              inStock := true |} ∧
    (∀ id, id ≠ "p1" → products st' !! id = products shop !! id) ∧
    transactions st' =
      transactions shop ++
      [mkTransaction "p1" ADJUSTMENT 0 5 5 "stocktake" None None "root"] ∧
    (5 = 5 → 0 = 0) ∧
    users st' = users shop ∧ bills st' = bills shop.
Proof.
  assert (Hp : products shop !! "p1" = Some aviator) by (vm_compute; reflexivity).
  split; [exact Hp|]. split; [lia|].
  exact (adjust_stock_sets (M := Z)
           "root" "p1" 5 "stocktake" None None shop aviator Hp ltac:(lia)).
Defined.

Lemma add_remove_round_trip_witness :
  products shop !! "p2" = Some wayfarer ∧
  0 ≤ stockCount wayfarer ∧
  1 ≤ 3 ∧
  stockCount <$>
    products
      (serve_all [AddStock "root" "p2" (int_number 3) "count" None None;
                  RemoveStock "root" "p2" 3 "count" None None] shop)
      !! "p2" = Some (stockCount wayfarer) ∧
  stockCount <$>
    products
      (serve_all [RemoveStock "root" "p2" 3 "count" None None;
                  AddStock "root" "p2" (int_number 3) "count" None None] shop)
      !! "p2" = Some (Z.max (stockCount wayfarer) 3).
Proof.
  assert (Hp : products shop !! "p2" = Some wayfarer) by (vm_compute; reflexivity).
  split; [exact Hp|]. split; [simpl; lia|]. split; [lia|].
  apply (add_remove_round_trip (M := Z)
           "root" "p2" 3 "count" None None shop wayfarer Hp); simpl; lia.
Defined.

Lemma adjust_overrides_history_witness :
  products shop !! "p1" = Some aviator ∧
  0 ≤ 7 ∧
  ∃ p',
    products
      (serve_all
         (stock_requests ++ [AdjustStock "root" "p1" 7 "stocktake" None None])
         shop) !! "p1" = Some p' ∧
    stockCount p' = 7 ∧
    inStock p' = (7 >? 0) ∧
    name p' = name aviator ∧ price p' = price aviator.
Proof.
  assert (Hp : products shop !! "p1" = Some aviator) by (vm_compute; reflexivity).
  split; [exact Hp|]. split; [lia|].
  exact (adjust_overrides_history (M := Z)
           stock_requests "root" "p1" 7 "stocktake" None None shop aviator Hp
           ltac:(lia)).
Defined.

Lemma stored_bill_content_kept_witness :
  bills shop_after_bill !! 0%nat = Some first_bill ∧
  ∃ b',
    bills (serve_all [UpdateStatus 1700000000500%N (castable 0%nat) "PAID";
                      AddStock "root" "p1" (int_number 4) "delivery" None None]
             shop_after_bill) !! 0%nat = Some b' ∧
    same_content first_bill b' ∧
    (falsy (billNumber first_bill) = false →
     billNumber b' = billNumber first_bill).
Proof.
  assert (Hb : bills shop_after_bill !! 0%nat = Some first_bill)
    by (vm_compute; reflexivity).
  split; [exact Hb|].
  exact (stored_bill_content_kept (M := Z)
           [UpdateStatus 1700000000500%N (castable 0%nat) "PAID";
            AddStock "root" "p1" (int_number 4) "delivery" None None]
           shop_after_bill 0%nat first_bill Hb).
Defined.

Lemma generate_debits_what_it_serves_witness :
  generate_valid (M := Z) [mkItem "p1" (int_number 3)] None None = true ∧
  users shop !! "a1" = Some ada ∧
  role ada = role_admin ∧
  lines_available "root" ada [mkItem "p1" (int_number 3)] shop ∧
  ∃ st',
    run (generate "root" 1700000000000%N "a1" [mkItem "p1" (int_number 3)] 0%N
           None None None) shop
      = (Failure 500 "Server error", st') ∧
    (∀ id,
       stockCount <$> products st' !! id =
       (λ n, n - requested id [mkItem "p1" (int_number 3)])
         <$> (stockCount <$> products shop !! id)) ∧
    (∃ new,
       transactions st' = transactions shop ++ new ∧
       record_key <$> new = line_key <$> [mkItem "p1" (int_number 3)] ∧
       Forall (λ t, txType t = OUT ∧ performedBy t = "root") new) ∧
    bills st' = bills shop.
Proof.
  assert (Hvalid :
    generate_valid (M := Z) [mkItem "p1" (int_number 3)] None None = true)
    by (vm_compute; reflexivity).
  assert (Hadm : users shop !! "a1" = Some ada) by (vm_compute; reflexivity).
  assert (Hav : lines_available "root" ada [mkItem "p1" (int_number 3)] shop).
  { split; [vm_compute; reflexivity|]. split; [|exact I].
    exists aviator. split; [vm_compute; reflexivity|].
    eexists. vm_compute. reflexivity. }
  split; [exact Hvalid|]. split; [exact Hadm|]. split; [reflexivity|].
  split; [exact Hav|].
  exact (generate_debits_what_it_serves (M := Z)
           "root" 1700000000000%N "a1" [mkItem "p1" (int_number 3)] 0%N
           None None None shop ada Hvalid Hadm eq_refl Hav).
Defined.

Lemma bill_number_inj_witness :
  bill_number 1700000000000 0 = "BILL-1700000000000-1" ∧
  bill_number 1700000000000 0 = bill_number 1700000000000 0 ∧
  1700000000000%N = 1700000000000%N ∧ 0%N = 0%N.
Proof.
  split; [vm_compute; reflexivity|]. split; [reflexivity|].
  exact (bill_number_inj 1700000000000 0 1700000000000 0 eq_refl).
Defined.


Lemma auth_lets_active_token_owner_through_witness :
  Accounts.auth Accounts.verify_example (Some "Bearer t1") Accounts.staff
    = Accounts.Next
        ("u1", Accounts.select_minus_password Accounts.clerk) ∧
  ∃ token stored,
    Accounts.replace_with_empty "Bearer " <$> Some "Bearer t1" = Some token ∧
    token ≠ "" ∧
    Accounts.verify_example token = Some "u1" ∧
    Accounts.staff !! "u1" = Some stored ∧
    Accounts.isActive stored = true ∧
    Accounts.select_minus_password Accounts.clerk =
      Accounts.select_minus_password stored ∧
    Accounts.password (Accounts.select_minus_password Accounts.clerk) = None.
Proof.
  assert (Hauth :
    Accounts.auth Accounts.verify_example (Some "Bearer t1") Accounts.staff
    = Accounts.Next ("u1", Accounts.select_minus_password Accounts.clerk))
    by (vm_compute; reflexivity).
  split; [exact Hauth|].
  exact (AccountsFacts.auth_lets_active_token_owner_through
           Accounts.verify_example (Some "Bearer t1") Accounts.staff "u1"
           (Accounts.select_minus_password Accounts.clerk) Hauth).
Defined.

Lemma auth_bearer_prefix_optional_witness :
  Accounts.no_space "t1" ∧
  Accounts.auth Accounts.verify_example (Some "t1") Accounts.staff =
  Accounts.auth Accounts.verify_example (Some ("Bearer " +:+ "t1"))
    Accounts.staff.
Proof.
  assert (Hs : Accounts.no_space "t1").
  { simpl. split; [discriminate|]. split; [discriminate|]. exact I. }
  split; [exact Hs|].
  exact (AccountsFacts.auth_bearer_prefix_optional
           Accounts.verify_example "t1" Accounts.staff Hs).
Defined.

Lemma deleted_user_cannot_authenticate_witness :
  Accounts.delete_user (castable "u1") Accounts.staff =
    (Success 200 "User deleted successfully" tt,
     <["u1" := Accounts.pre_save (Accounts.set_isActive Accounts.clerk false)]>
       Accounts.staff) ∧
  Accounts.auth Accounts.verify_example (Some "Bearer t1")
    (<["u1" := Accounts.pre_save (Accounts.set_isActive Accounts.clerk false)]>
       Accounts.staff)
    ≠ Accounts.Next ("u1", Accounts.select_minus_password Accounts.clerk).
Proof.
  assert (Hdel :
    Accounts.delete_user (castable "u1") Accounts.staff =
    (Success 200 "User deleted successfully" tt,
     <["u1" := Accounts.pre_save (Accounts.set_isActive Accounts.clerk false)]>
       Accounts.staff)) by (vm_compute; reflexivity).
  split; [exact Hdel|].
  exact (AccountsFacts.deleted_user_cannot_authenticate
           Accounts.verify_example "u1" Accounts.staff _
           "User deleted successfully" (Some "Bearer t1")
           (Accounts.select_minus_password Accounts.clerk) Hdel).
Defined.

Lemma inventory_guard_witness :
  (∀ id u, Accounts.staff !! id = Some u →
           Accounts.permissions u =
           Accounts.permissions (Accounts.pre_save u)) ∧
  Accounts.auth_then_checkPermission Accounts.verify_example
    Accounts.key_canManageInventory (Some "Bearer t1") Accounts.staff
    = Accounts.Next ("u1", Accounts.select_minus_password Accounts.clerk) ∧
  (Accounts.role (Accounts.select_minus_password Accounts.clerk)
     = role_superadmin ∨
   Accounts.role (Accounts.select_minus_password Accounts.clerk)
     = role_admin).
Proof.
  assert (Hhook : ∀ id u, Accounts.staff !! id = Some u →
                          Accounts.permissions u =
                          Accounts.permissions (Accounts.pre_save u)).
  { intros id u. unfold Accounts.staff.
    rewrite lookup_insert_Some, lookup_singleton_Some.
    intros [[_ <-] | [_ [_ <-]]]; reflexivity. }
  assert (Hpass :
    Accounts.auth_then_checkPermission Accounts.verify_example
      Accounts.key_canManageInventory (Some "Bearer t1") Accounts.staff
    = Accounts.Next ("u1", Accounts.select_minus_password Accounts.clerk))
    by (vm_compute; reflexivity).
  split; [exact Hhook|]. split; [exact Hpass|].
  destruct (AccountsFacts.inventory_guard Accounts.verify_example
              (Some "Bearer t1") Accounts.staff Hhook) as [Hin _].
  exact (proj1 (Hin "u1" (Accounts.select_minus_password Accounts.clerk) Hpass)).
Defined.

(** An id that does not cast, on the three routes that take one. *)
Example uncastable_id :
  get_bill "a1" role_admin uncastable shop_after_bill
    = Refused 500 "Server error" ∧
  run (update_status 1700000000500%N uncastable "PAID") shop_after_bill
    = (Failure 500 "Server error", shop_after_bill) ∧
  Accounts.delete_user uncastable Accounts.staff
    = (Failure 500 "Server error", Accounts.staff).
Proof. split_and!; reflexivity. Qed.
